(** * Intercompany chaincode (intercomany/intercompanyA.go): model and properties

    The chaincode keeps intercompany accounts and software licenses in the
    ledger's key-value world state and bills license transfers and support
    fees to accounts.  This file embeds its functions as executable
    definitions over an explicit world state and proves properties of them.

    Reading of the source.  Several lines of intercompanyA.go are not valid
    Go.  Such a line is read as the nearest valid Go: [x[a,b]] as the slice
    [x[a:b]]; [[a, b]] as [[]string{a, b}]; a two-result call of strconv used
    as one value as its first result, the error dropped; an [int] multiplied
    with a [float64] as converted to [float64]; a variable introduced by
    [:=] inside a block and used after it as declared before the block with
    its zero value; [monthDiff], whose text ends after the assignment to
    [res], as returning [res].  Lines that are valid Go are modelled as they
    stand. *)

From Stdlib Require Import ZArith Floats Ascii String List Lia Bool.
From stdpp Require Import gmap strings list.

Local Open Scope string_scope.
Local Open Scope Z_scope.

(** ** Go strings and integers *)

Module GoString.

  (** [s[a:b]] on a string: the bytes from [a] up to [b], [None] where Go
      panics (slice bounds out of range). *)
Definition slice (s : string) (a b : nat) : option string :=
    if ((a <=? b) && (b <=? String.length s))%nat
    then Some (String.substring a (b - a) s) else None.

Definition is_digit (c : ascii) : bool :=
    ((48 <=? nat_of_ascii c) && (nat_of_ascii c <=? 57))%nat.

Definition digit_val (c : ascii) : Z := Z.of_nat (nat_of_ascii c) - 48.

Definition digit_char (d : Z) : ascii := ascii_of_nat (Z.to_nat (48 + d)).

  (** Value of a string of decimal digits read after [acc]; [None] when a byte
      is not a digit. *)
Fixpoint digits_val (acc : Z) (s : string) : option Z :=
    match s with
    | EmptyString => Some acc
    | String c r =>
        if is_digit c then digits_val (10 * acc + digit_val c) r else None
    end.

Fixpoint digits_of (fuel : nat) (n : Z) (acc : string) : string :=
    match fuel with
    | O => acc
    | S fuel' =>
        let acc' := String (digit_char (n mod 10)) acc in
        if n / 10 =? 0 then acc' else digits_of fuel' (n / 10) acc'
    end.

  (** Decimal digits of a natural number, most significant first. *)
Definition decimal (n : Z) : string :=
    digits_of (S (Z.to_nat (Z.log2 n))) n EmptyString.

Fixpoint contains (c : ascii) (s : string) : bool :=
    match s with
    | EmptyString => false
    | String d r => if Ascii.eqb c d then true else contains c r
    end.

(** How often the byte [c] occurs in [s]. *)
Fixpoint count (c : ascii) (s : string) : nat :=
  match s with
  | EmptyString => O
  | String d r => ((if Ascii.eqb c d then 1 else 0) + count c r)%nat
  end.

Definition lower (c : ascii) : ascii :=
    let n := nat_of_ascii c in
    if ((65 <=? n) && (n <=? 90))%nat then ascii_of_nat (n + 32) else c.

Fixpoint fold_case (s : string) : string :=
    match s with
    | EmptyString => EmptyString
    | String c r => String (lower c) (fold_case r)
    end.

End GoString.

Module GoInt.

Definition min64 : Z := - 2 ^ 63.
Definition max64 : Z := 2 ^ 63 - 1.

  (** Two's complement wrap-around of 64-bit signed arithmetic. *)
Definition wrap64 (z : Z) : Z := (z + 2 ^ 63) mod 2 ^ 64 - 2 ^ 63.

Definition add64 (a b : Z) : Z := wrap64 (a + b).
Definition sub64 (a b : Z) : Z := wrap64 (a - b).
Definition mul64 (a b : Z) : Z := wrap64 (a * b).

End GoInt.

(** ** strconv: integers *)

Inductive numError : Type := ErrSyntax | ErrRange.

Module Strconv.
Import GoString GoInt.

  (** [strconv.ParseInt(s, 10, 64)]: an optional sign and at least one
      decimal digit; the value is 0 on a syntax error and the nearest bound
      on overflow. *)
Definition ParseInt (s : string) : Z * option numError :=
    match s with
    | EmptyString => (0, Some ErrSyntax)
    | String c r =>
        let neg := Ascii.eqb c "-"%char in
        let body := if Ascii.eqb c "+"%char || neg then r else s in
        match body with
        | EmptyString => (0, Some ErrSyntax)
        | _ =>
            match digits_val 0 body with
            | None => (0, Some ErrSyntax)
            | Some un =>
                if negb neg && (2 ^ 63 <=? un) then (max64, Some ErrRange)
                else if neg && (2 ^ 63 <? un) then (min64, Some ErrRange)
                else (if neg then - un else un, None)
            end
        end
    end.

  (** [strconv.FormatInt(i, 10)] and [strconv.Itoa]. *)
Definition FormatInt (i : Z) : string :=
    if i <? 0 then String "-"%char (decimal (- i)) else decimal i.

  (** [strconv.Atoi]. *)
Definition Atoi (s : string) : Z * option numError := ParseInt s.

End Strconv.

(** ** float64 and strconv's float conversions

    A Go [float64] is an IEEE 754 binary64 number: the kernel's primitive
    [float], whose operations round to nearest, ties to even, as Go's do. *)

Module Float64.
Import GoString.

  (** [float64(i)] for a 64-bit integer [i]. *)
Definition of_int (i : Z) : float :=
    if i =? - 2 ^ 63 then (- (PrimFloat.of_uint63 (Uint63.of_Z (2 ^ 62)) * 2))%float
    else if i <? 0 then (- PrimFloat.of_uint63 (Uint63.of_Z (- i)))%float
    else PrimFloat.of_uint63 (Uint63.of_Z i).

  (** The binary64 value nearest to [m * 10 ^ e] for a positive [m]. *)
Definition round_decimal (m : positive) (e : Z) : spec_float :=
    if 0 <=? e then binary_normalize prec emax (Zpos m * 10 ^ e) 0 false
    else
      let '(q, e', l) := SFdiv_core_binary prec emax (Zpos m) 0 (10 ^ (- e)) 0 in
      binary_round_aux prec emax false q e' l.

Definition sf_eqb (x y : spec_float) : bool :=
    match x, y with
    | S754_zero a, S754_zero b => Bool.eqb a b
    | S754_infinity a, S754_infinity b => Bool.eqb a b
    | S754_nan, S754_nan => true
    | S754_finite a m e, S754_finite b n f =>
        Bool.eqb a b && Pos.eqb m n && (e =? f)
    | _, _ => false
    end.

Definition is_nan (x : float) : bool := negb (x =? x)%float.



End Float64.

(** The two conversions of package strconv the chaincode calls, with the
    arguments it always passes: [strconv.ParseFloat(s, 64)], whose value is
    kept also when its error is dropped, and
    [strconv.FormatFloat(x, 'E', -1, 64)]. *)
Class StrconvFloat : Type := {
  ParseFloat : string -> float * option numError;
  FormatFloat : float -> string
}.

(** A reference implementation after the package's documentation: decimal
    literals ([digits], [digits.digits], an optional exponent), [inf],
    [infinity] and [nan] in any letter case, rounded to the nearest binary64;
    the shortest decimal that reads back as the same number, printed as
    [d.dddE+dd]. *)
Module RefStrconv.
Import GoString Float64.

Fixpoint span_digits (s : string) : string * string :=
    match s with
    | String c r =>
        if is_digit c then let '(d, t) := span_digits r in (String c d, t)
        else (EmptyString, s)
    | EmptyString => (EmptyString, EmptyString)
    end.

Definition read_exponent (s : string) : option Z :=
    match s with
    | EmptyString => Some 0
    | String c r =>
        if Ascii.eqb (lower c) "e"%char then
          match Strconv.ParseInt r with
          | (v, None) => Some v
          | (v, Some ErrRange) => Some v
          | (_, Some ErrSyntax) => None
          end
        else None
    end.

  (** Mantissa digits and decimal exponent of a decimal literal. *)
Definition read_decimal (s : string) : option (Z * Z) :=
    let '(ip, r1) := span_digits s in
    let '(fp, r2) :=
      match r1 with
      | String c r => if Ascii.eqb c "."%char then span_digits r else (EmptyString, r1)
      | EmptyString => (EmptyString, r1)
      end in
    if (String.length ip + String.length fp =? 0)%nat then None
    else
      match digits_val 0 (ip ++ fp), read_exponent r2 with
      | Some m, Some e => Some (m, e - Z.of_nat (String.length fp))
      | _, _ => None
      end.

Definition decimal_value (m e : Z) : spec_float :=
    match m with
    | Zpos p =>
        let nd := Z.of_nat (String.length (decimal m)) in
        if 310 <? e + nd then S754_infinity false
        else if e + nd <? - 330 then S754_zero false
        else round_decimal p e
    | _ => S754_zero false
    end.

Definition parse_unsigned (s : string) : option spec_float :=
    let f := fold_case s in
    if String.eqb f "inf" || String.eqb f "infinity" then Some (S754_infinity false)
    else
      match read_decimal s with
      | Some (m, e) => Some (decimal_value m e)
      | None => None
      end.

Definition ref_ParseFloat (s : string) : float * option numError :=
    if String.eqb (fold_case s) "nan" then (PrimFloat.nan, None)
    else
      let '(neg, body) :=
        match s with
        | String c r =>
            if Ascii.eqb c "-"%char then (true, r)
            else if Ascii.eqb c "+"%char then (false, r) else (false, s)
        | EmptyString => (false, s)
        end in
      match parse_unsigned body with
      | None => (PrimFloat.zero, Some ErrSyntax)
      | Some v =>
          let x := SF2Prim (if neg then SFopp v else v) in
          match v with
          | S754_infinity _ =>
              if String.eqb (fold_case body) "inf" || String.eqb (fold_case body) "infinity"
              then (x, None) else (x, Some ErrRange)
          | _ => (x, None)
          end
      end.

  (** [10 ^ p <= n / d] for positive [n], [d]. *)
Definition pow10_le (n d p : Z) : bool :=
    if 0 <=? p then 10 ^ p * d <=? n else d <=? n * 10 ^ (- p).

  (** The decimal exponent of [n / d]: the largest [p] with [10 ^ p <= n / d]. *)
Definition exponent10 (n d : Z) : Z :=
    let est := (Z.log2 n - Z.log2 d) * 1233 / 4096 in
    let up := fix up (fuel : nat) (p : Z) : Z :=
      match fuel with
      | O => p
      | S k => if pow10_le n d (p + 1) then up k (p + 1) else p
      end in
    up 6%nat (est - 2).

  (** [floor] and doubled remainder test of [n / (d * 10 ^ k)]: the integer
      part and how the rest compares with one half. *)
Definition scale10 (n d k : Z) : Z * comparison :=
    let '(num, den) := if 0 <=? k then (n, d * 10 ^ k) else (n * 10 ^ (- k), d) in
    (num / den, (2 * (num mod den)) ?= den).

Definition reads_back (x : spec_float) (c k : Z) : bool :=
    match c with
    | Zpos p => sf_eqb (round_decimal p k) x
    | _ => false
    end.

  (** Shortest digits of the positive finite number [x = n / d]: the first
      length [len] at which one of the two neighbouring decimals of that
      length reads back as [x], the nearer one if both do. *)
Fixpoint shortest (fuel : nat) (x : spec_float) (n d p : Z) (len : Z) : Z * Z :=
    let k := p - len + 1 in
    let '(lo, half) := scale10 n d k in
    let hi := lo + 1 in
    let near := match half with
                | Lt => lo
                | Gt => hi
                | Eq => if Z.even lo then lo else hi
                end in
    match fuel with
    | O => (near, k)
    | S fuel' =>
        match reads_back x lo k, reads_back x hi k with
        | true, true => (near, k)
        | true, false => (lo, k)
        | false, true => (hi, k)
        | false, false => shortest fuel' x n d p (len + 1)
        end
    end.

Fixpoint strip_zeros (fuel : nat) (c k : Z) : Z * Z :=
    match fuel with
    | O => (c, k)
    | S fuel' => if (c mod 10 =? 0) && negb (c =? 0) then strip_zeros fuel' (c / 10) (k + 1) else (c, k)
    end.

Definition exponent_text (e : Z) : string :=
    let a := decimal (Z.abs e) in
    String (if e <? 0 then "-"%char else "+"%char)
      (if (String.length a <? 2)%nat then String "0"%char a else a).

Definition scientific (c k : Z) : string :=
    let ds := decimal c in
    let e := k + Z.of_nat (String.length ds) - 1 in
    match ds with
    | String d1 EmptyString => String d1 ("E" ++ exponent_text e)
    | String d1 r => String d1 ("." ++ r ++ "E" ++ exponent_text e)
    | EmptyString => "0E+00"
    end.

Definition ref_FormatFloat (x : float) : string :=
    match Prim2SF x with
    | S754_nan => "NaN"
    | S754_infinity s => if s then "-Inf" else "+Inf"
    | S754_zero s => if s then "-0E+00" else "0E+00"
    | S754_finite s m e =>
        let '(n, d) := if 0 <=? e then (Zpos m * 2 ^ e, 1) else (Zpos m, 2 ^ (- e)) in
        let '(c, k) := shortest 17 (S754_finite false m e) n d (exponent10 n d) 1 in
        let '(c', k') := strip_zeros 20 c k in
        (if s then "-" else "") ++ scientific c' k'
    end.

#[export] Instance reference : StrconvFloat :=
    {| ParseFloat := ref_ParseFloat; FormatFloat := ref_FormatFloat |}.

End RefStrconv.

#[global] Existing Instance RefStrconv.reference.

(** ** Stored values: encoding/json

    The world state maps keys to byte strings.  The chaincode stores JSON
    text only, so a stored value is kept as the JSON document its bytes
    denote: an object whose members are strings, an array of strings, [null],
    or other bytes, which no [json.Unmarshal] of the chaincode decodes. *)

Inductive doc : Type :=
  | DObj (members : list (string * string))
  | DArr (items : list string)
  | DNull
  | DRaw (text : string).

#[export] Instance doc_eq_dec : EqDecision doc.
Proof. solve_decision. Defined.

(** A Go slice of strings: [None] is the nil slice. *)
Definition strings : Type := option (list string).

Module Json.
Import GoString.

  (** The value [json.Unmarshal] leaves in the struct field tagged [tag]:
      that of the last member whose name equals the tag up to ASCII letter
      case, the empty string when there is none. *)
Definition field (tag : string) (ms : list (string * string)) : string :=
    fold_left
      (fun acc kv => if String.eqb (fold_case (fst kv)) (fold_case tag) then snd kv else acc)
      ms "".

  (** Members of a stored value as [json.Unmarshal] into a struct sees them:
      none when the key is absent or the bytes are not an object (the
      chaincode drops the error and keeps the zero struct). *)
Definition members_of (bytes : option doc) : list (string * string) :=
    match bytes with
    | Some (DObj ms) => ms
    | _ => []
    end.

  (** [json.Unmarshal] into a [[]string] that was declared without a value. *)
Definition unmarshal_strings (bytes : option doc) : strings :=
    match bytes with
    | Some (DArr l) => Some l
    | _ => None
    end.

  (** [json.Marshal] of a [[]string]: [null] for the nil slice. *)
Definition marshal_strings (l : strings) : doc :=
    match l with
    | Some l => DArr l
    | None => DNull
    end.

  (** A byte that stands for itself inside a JSON string literal. *)
Definition plain_char (c : ascii) : bool :=
    let n := nat_of_ascii c in
    ((32 <=? n) && (n <=? 126) && negb (n =? 34) && negb (n =? 92))%nat.

Fixpoint plain (s : string) : bool :=
    match s with
    | EmptyString => true
    | String c r => plain_char c && plain r
    end.

Definition quote : string := String (ascii_of_nat 34) EmptyString.

Definition member_text (kv : string * string) : string :=
    quote ++ fst kv ++ quote ++ ": " ++ quote ++ snd kv ++ quote.

  (** The members of the text that create_account and create_license build
      by concatenation: each as a quoted name, a colon and a quoted value,
      separated by commas. *)
Fixpoint members_text (ms : list (string * string)) : string :=
    match ms with
    | [] => ""
    | [kv] => member_text kv
    | kv :: r => member_text kv ++ ", " ++ members_text r
    end.

  (** The document denoted by that text: the object with these members when
      every interpolated value is plain; the raw text otherwise. *)
Definition object_of_text (ms : list (string * string)) : doc :=
    if forallb (fun kv => plain (snd kv)) ms then DObj ms
    else DRaw ("{" ++ members_text ms ++ "}").

End Json.

(** ** The structs of the chaincode *)

Record License : Type := mkLicense {
  LicenseKey : string;
  LicensePartNo : string;
  BaseEntityCode : string;
  Quantity : string;
  LicensePrice : string;
  SupportFee : string;
  LicenseStartDate : string;
  LicenseEndDate : string;
  SupportStartDate : string;
  SupportEndDate : string;
  Currency : string;
  LastSettlementDate : string
}.

(** The account's currency field is [AccountCurrency] here: Rocq keeps one
    projection per name. *)
Record IntercompanyAccount : Type := mkAccount {
  AccountKey : string;
  DueToEntityCode : string;
  DueFromEntityCode : string;
  DueToEntityName : string;
  DueFromEntityName : string;
  AccountCurrency : string;
  Period : string;
  OpeningBalance : string;
  Activity : string;
  PeriodToDateBalance : string;
  AccountNo : string;
  AccountName : string
}.

Definition LicenseIndexStr : string := "_licenseindex".
Definition AccountIndexStr : string := "_accountindex".

Module Codec.
Import Json.

  (** [json.Unmarshal(bytes, &res)] on a fresh [License{}]. *)
Definition unmarshal_license (bytes : option doc) : License :=
    let ms := members_of bytes in
    {| LicenseKey := field "licenseKey" ms;
       LicensePartNo := field "licensePartNo" ms;
       BaseEntityCode := field "baseEntityCode" ms;
       Quantity := field "quantity" ms;
       LicensePrice := field "licensePrice" ms;
       SupportFee := field "supportFee" ms;
       LicenseStartDate := field "licenseStartDate" ms;
       LicenseEndDate := field "licenseEndDate" ms;
       SupportStartDate := field "supportStartDate" ms;
       SupportEndDate := field "supportEndDate" ms;
       Currency := field "currency" ms;
       LastSettlementDate := field "lastSettlementDate" ms |}.

  (** [json.Marshal] of a [License]. *)
Definition marshal_license (l : License) : doc :=
    DObj [ ("licenseKey", LicenseKey l);
           ("licensePartNo", LicensePartNo l);
           ("baseEntityCode", BaseEntityCode l);
           ("quantity", Quantity l);
           ("licensePrice", LicensePrice l);
           ("supportFee", SupportFee l);
           ("licenseStartDate", LicenseStartDate l);
           ("licenseEndDate", LicenseEndDate l);
           ("supportStartDate", SupportStartDate l);
           ("supportEndDate", SupportEndDate l);
           ("currency", Currency l);
           ("lastSettlementDate", LastSettlementDate l) ].

  (** [json.Unmarshal(bytes, &res)] on a fresh [IntercompanyAccount{}]. *)
Definition unmarshal_account (bytes : option doc) : IntercompanyAccount :=
    let ms := members_of bytes in
    {| AccountKey := field "accountKey" ms;
       DueToEntityCode := field "dueToEntityCode" ms;
       DueFromEntityCode := field "dueFromEntityCode" ms;
       DueToEntityName := field "dueToEntityName" ms;
       DueFromEntityName := field "dueFromEntityName" ms;
       AccountCurrency := field "currency" ms;
       Period := field "period" ms;
       OpeningBalance := field "openingBalance" ms;
       Activity := field "activity" ms;
       PeriodToDateBalance := field "periodToDateBalance" ms;
       AccountNo := field "accountNo" ms;
       AccountName := field "accountName" ms |}.

  (** [json.Marshal] of an [IntercompanyAccount]. *)
Definition marshal_account (a : IntercompanyAccount) : doc :=
    DObj [ ("accountKey", AccountKey a);
           ("dueToEntityCode", DueToEntityCode a);
           ("dueFromEntityCode", DueFromEntityCode a);
           ("dueToEntityName", DueToEntityName a);
           ("dueFromEntityName", DueFromEntityName a);
           ("currency", AccountCurrency a);
           ("period", Period a);
           ("openingBalance", OpeningBalance a);
           ("activity", Activity a);
           ("periodToDateBalance", PeriodToDateBalance a);
           ("accountNo", AccountNo a);
           ("accountName", AccountName a) ].

End Codec.

(** ** The ledger: shim.ChaincodeStubInterface

    The world state is a finite map from keys to stored values; a read sees
    the writes made before it.  A call of the stub may fail: which call fails
    is the ledger's, given here per key. *)

Abbreviation world := (gmap string doc).

Class Ledger : Type := {
  get_fails : string -> bool;
  put_fails : string -> option string;
  del_fails : string -> bool
}.

(** A ledger with no failure but the shim's refusal to put under the empty
    key. *)
#[export] Instance sound_ledger : Ledger :=
  {| get_fails := fun _ => false;
     put_fails := fun k => if String.eqb k "" then Some "key must not be an empty string" else None;
     del_fails := fun _ => false |}.

(** [pb.Response] as built by [shim.Success] and [shim.Error]. *)
Inductive response : Type :=
  | Success (payload : option doc)
  | Error (msg : string).

(** ** Control: sequencing, early return and panics *)

Inductive outcome (A : Type) : Type :=
  | Next (a : A) (w : world)
  | Return (r : response) (w : world)
  | Panic (w : world).
Arguments Next {A} a w.
Arguments Return {A} r w.
Arguments Panic {A} w.

Definition M (A : Type) : Type := world -> outcome A.

#[export] Instance M_ret : MRet M := fun A a w => Next a w.
#[export] Instance M_bind : MBind M := fun A B f m w =>
  match m w with
  | Next a w' => f a w'
  | Return r w' => Return r w'
  | Panic w' => Panic w'
  end.

(** [return r] inside a function body. *)
Definition return_ {A : Type} (r : response) : M A := fun w => Return r w.

Definition panic {A : Type} : M A := fun w => Panic w.

(** [if c { return r }]. *)
Definition return_if (c : bool) (r : response) : M unit :=
  if c then return_ r else mret tt.

(** A function call: the callee's [return] ends the callee only, a panic
    unwinds through the caller. *)
Definition call (body : M response) : M response := fun w =>
  match body w with
  | Next r w' | Return r w' => Next r w'
  | Panic w' => Panic w'
  end.

(** [args[i]], which panics when [i] is out of range. *)
Definition at_index (args : list string) (i : nat) : M string :=
  match args !! i with
  | Some a => mret a
  | None => panic
  end.

(** [s[a:b]], which panics when the bounds are out of range. *)
Definition substr (s : string) (a b : nat) : M string :=
  match GoString.slice s a b with
  | Some t => mret t
  | None => panic
  end.

Section Stub.
Context {ledger : Ledger}.

  (** [stub.GetState(key)]: the stored bytes, nil for an absent key, and
      whether the ledger reported an error. *)
Definition GetState (key : string) : M (option doc * bool) := fun w =>
    if get_fails key then Next (None, true) w else Next (w !! key, false) w.

  (** [stub.PutState(key, value)]: the error, if any. *)
Definition PutState (key : string) (value : doc) : M (option string) := fun w =>
    match put_fails key with
    | Some e => Next (Some e) w
    | None => Next None (<[key := value]> w)
    end.

  (** [stub.DelState(key)]. *)
Definition DelState (key : string) : M bool := fun w =>
    if del_fails key then Next true w else Next false (delete key w).
End Stub.

(** ** The chaincode *)

Section Chaincode.
Context {conv : StrconvFloat} {ledger : Ledger}.
Import Codec Json Strconv GoInt.

Definition ok : response := Success None.

  (** [if err != nil { return shim.Error(err.Error()) }] after a put. *)
Definition return_if_put_failed (err : option string) : M unit :=
    match err with
    | Some e => return_ (Error e)
    | None => mret tt
    end.

  (** Go's [append(index, key)]. *)
Definition append (l : strings) (key : string) : strings :=
    Some (default [] l ++ [key])%list.

  (** *** Init *)

Definition Init (args : list string) : M response := call (
    _ ← return_if (negb (length args =? 1)%nat)
          (Error "Incorrect number of arguments. Expecting a single integer");
    a0 ← at_index args 0;
    let '(Aval, err) := Atoi a0 in
    _ ← return_if (bool_decide (is_Some err))
          (Error "Expecting an integer argument to Init() for instantiate");
    err ← PutState "test_key" (DRaw (FormatInt Aval));
    _ ← return_if_put_failed err;
    let jsonAsBytes := marshal_strings None in
    err ← PutState LicenseIndexStr jsonAsBytes;
    _ ← return_if_put_failed err;
    err ← PutState AccountIndexStr jsonAsBytes;
    _ ← return_if_put_failed err;
    mret ok).

  (** *** read *)

Definition read (args : list string) : M response := call (
    _ ← return_if (negb (length args =? 1)%nat)
          (Error "Incorrect number of arguments. Expecting key of the var to query");
    name ← at_index args 0;
    '(valAsbytes, err) ← GetState name;
    _ ← return_if err
          (Error ("{" ++ quote ++ "Error" ++ quote ++ ":" ++ quote
                  ++ "Failed to get state for " ++ name ++ quote ++ "}"));
    mret (Success valAsbytes)).

  (** *** create_account *)

Definition create_account (args : list string) : M response := call (
    _ ← return_if (negb (length args =? 10)%nat)
          (Error "Incorrect number of arguments. Expecting 10");
    dueToEntityCode ← at_index args 0;
    dueFromEntityCode ← at_index args 1;
    accountNo ← at_index args 8;
    let accountKey := dueToEntityCode ++ "_" ++ dueFromEntityCode ++ "_" ++ accountNo in
    a6 ← at_index args 6;
    let '(openingBalance, err) := ParseFloat a6 in
    _ ← return_if (bool_decide (is_Some err)) (Error "7th argument must be a numeric string");
    a7 ← at_index args 7;
    let '(activity, err) := ParseFloat a7 in
    _ ← return_if (bool_decide (is_Some err)) (Error "8th argument must be a numeric string");
    let periodToDateBalance := (openingBalance + activity)%float in
    '(accountAsBytes, err) ← GetState accountKey;
    _ ← return_if err (Error "Failed to get account key");
    let res := unmarshal_account accountAsBytes in
    _ ← return_if (String.eqb (AccountKey res) accountKey) (Error "This account arleady exists");
    let openingBalanceStr := FormatFloat openingBalance in
    let activityStr := FormatFloat activity in
    let periodToDateBalanceStr := FormatFloat periodToDateBalance in
    a2 ← at_index args 2;
    a3 ← at_index args 3;
    a4 ← at_index args 4;
    a5 ← at_index args 5;
    a9 ← at_index args 9;
    let str := object_of_text
      [ ("accountKey", accountKey);
        ("dueToEntityCode", dueToEntityCode);
        ("dueFromEntityCode", dueFromEntityCode);
        ("dueToEntityName", a2);
        ("dueFromEntityName", a3);
        ("currency", a4);
        ("period", a5);
        ("openingBalance", openingBalanceStr);
        ("activity", activityStr);
        ("periodToDateBalance", periodToDateBalanceStr);
        ("accountNo", accountNo);
        ("accountName", a9) ] in
    err ← PutState accountKey str;
    _ ← return_if_put_failed err;
    '(accountsAsBytes, err) ← GetState AccountIndexStr;
    _ ← return_if err (Error "Failed to get user index");
    let accountIndex := unmarshal_strings accountsAsBytes in
    let accountIndex := append accountIndex accountKey in
    let jsonAsBytes := marshal_strings accountIndex in
    _ ← PutState AccountIndexStr jsonAsBytes;
    mret ok).

  (** *** create_license *)

Definition create_license (args : list string) : M response := call (
    _ ← return_if (negb (length args =? 11)%nat)
          (Error "Incorrect number of arguments. Expecting 11");
    a0 ← at_index args 0;
    a1 ← at_index args 1;
    let licenseKey := a0 ++ "_" ++ a1 in
    a2 ← at_index args 2;
    let '(quantity, err) := ParseFloat a2 in
    _ ← return_if (bool_decide (is_Some err)) (Error "3rd argument must be a numeric string");
    a3 ← at_index args 3;
    let '(licensePrice, err) := ParseFloat a3 in
    _ ← return_if (bool_decide (is_Some err)) (Error "4th argument must be a numeric string");
    a4 ← at_index args 4;
    let '(supportFee, err) := ParseFloat a4 in
    _ ← return_if (bool_decide (is_Some err)) (Error "5th argument must be a numeric string");
    '(licenseAsBytes, err) ← GetState licenseKey;
    _ ← return_if err (Error "Failed to get license");
    let res := unmarshal_license licenseAsBytes in
    _ ← return_if (String.eqb (LicenseKey res) licenseKey) (Error "This license arleady exists");
    let quantityStr := FormatFloat quantity in
    let licensePriceStr := FormatFloat licensePrice in
    let supportFeeStr := FormatFloat supportFee in
    a5 ← at_index args 5;
    a6 ← at_index args 6;
    a7 ← at_index args 7;
    a8 ← at_index args 8;
    a9 ← at_index args 9;
    a10 ← at_index args 10;
    let str := object_of_text
      [ ("licenseKey", licenseKey);
        ("licensePartNo", a0);
        ("baseEntityCode", a1);
        ("quantity", quantityStr);
        ("licensePrice", licensePriceStr);
        ("supportFee", supportFeeStr);
        ("licenseStartDate", a5);
        ("licenseEndDate", a6);
        ("supportStartDate", a7);
        ("supportEndDate", a8);
        ("currency", a9);
        ("LastSettlementDate", a10) ] in
    err ← PutState licenseKey str;
    _ ← return_if_put_failed err;
    '(licensesAsBytes, err) ← GetState LicenseIndexStr;
    _ ← return_if err (Error "Failed to get license index");
    let licenseIndex := unmarshal_strings licensesAsBytes in
    let licenseIndex := append licenseIndex licenseKey in
    let jsonAsBytes := marshal_strings licenseIndex in
    _ ← PutState LicenseIndexStr jsonAsBytes;
    mret ok).

  (** *** monthDiff *)

Definition monthDiff (dateA dateB : string) : M Z :=
    mA ← substr dateA 0 2;
    let monthDateA := fst (ParseInt mA) in
    mB ← substr dateB 0 2;
    let monthDateB := fst (ParseInt mB) in
    yA ← substr dateA 6 10;
    let yearDateA := fst (ParseInt yA) in
    yB ← substr dateB 6 10;
    let yearDateB := fst (ParseInt yB) in
    let res := sub64 (add64 (mul64 (sub64 yearDateB yearDateA) 12) monthDateB) monthDateA in
    mret res.

  (** *** addActivityToAccount *)

  (** The record with [amount] added to its activity and to its
      period-to-date balance. *)
Definition post (resAccount : IntercompanyAccount) (amount : float) : IntercompanyAccount :=
    let activity := fst (ParseFloat (Activity resAccount)) in
    let newActivity := (activity + amount)%float in
    let newActivityStr := FormatFloat newActivity in
    let periodToDateBalance := fst (ParseFloat (PeriodToDateBalance resAccount)) in
    let newPeriodToDateBalance := (periodToDateBalance + amount)%float in
    let newPeriodToDateBalanceStr := FormatFloat newPeriodToDateBalance in
    {| AccountKey := AccountKey resAccount;
       DueToEntityCode := DueToEntityCode resAccount;
       DueFromEntityCode := DueFromEntityCode resAccount;
       DueToEntityName := DueToEntityName resAccount;
       DueFromEntityName := DueFromEntityName resAccount;
       AccountCurrency := AccountCurrency resAccount;
       Period := Period resAccount;
       OpeningBalance := OpeningBalance resAccount;
       Activity := newActivityStr;
       PeriodToDateBalance := newPeriodToDateBalanceStr;
       AccountNo := AccountNo resAccount;
       AccountName := AccountName resAccount |}.

Definition addActivityToAccount (args : list string) : M response := call (
    _ ← return_if (length args <? 2)%nat (Error "Incorrect number of arguments. Expecting 2");
    a0 ← at_index args 0;
    '(account, err) ← GetState a0;
    _ ← return_if err (Error "Failed to get the account");
    let resAccount := unmarshal_account account in
    a1 ← at_index args 1;
    let amount := fst (ParseFloat a1) in
    let resAccount := post resAccount amount in
    let accountAsBytes := marshal_account resAccount in
    a1 ← at_index args 1;
    err ← PutState a1 accountAsBytes;
    _ ← return_if_put_failed err;
    mret ok).

  (** *** settle_bill *)

Definition set_LastSettlementDate (l : License) (date : string) : License :=
    {| LicenseKey := LicenseKey l;
       LicensePartNo := LicensePartNo l;
       BaseEntityCode := BaseEntityCode l;
       Quantity := Quantity l;
       LicensePrice := LicensePrice l;
       SupportFee := SupportFee l;
       LicenseStartDate := LicenseStartDate l;
       LicenseEndDate := LicenseEndDate l;
       SupportStartDate := SupportStartDate l;
       SupportEndDate := SupportEndDate l;
       Currency := Currency l;
       LastSettlementDate := date |}.

Definition set_Quantity (l : License) (quantity : string) : License :=
    {| LicenseKey := LicenseKey l;
       LicensePartNo := LicensePartNo l;
       BaseEntityCode := BaseEntityCode l;
       Quantity := quantity;
       LicensePrice := LicensePrice l;
       SupportFee := SupportFee l;
       LicenseStartDate := LicenseStartDate l;
       LicenseEndDate := LicenseEndDate l;
       SupportStartDate := SupportStartDate l;
       SupportEndDate := SupportEndDate l;
       Currency := Currency l;
       LastSettlementDate := LastSettlementDate l |}.

  (** [supportFee * quantity * months / 12] of settle_bill. *)
Definition supportCharge (resLicense : License) (months : Z) : float :=
    let quantity := fst (ParseFloat (Quantity resLicense)) in
    let supportFee := fst (ParseFloat (SupportFee resLicense)) in
    (supportFee * quantity * Float64.of_int months / 12)%float.

  (** [currentDate] is [time.Now().Format] with the layout of month, day and
      year, the date of the invocation. *)
Definition settle_bill (currentDate : string) (args : list string) : M response := call (
    _ ← return_if (length args <? 2)%nat (Error "Incorrect number of arguments. Expecting 2");
    a0 ← at_index args 0;
    '(license, err) ← GetState a0;
    _ ← return_if err (Error "Failed to get the license");
    let resLicense := unmarshal_license license in
    let lastSettlementDate := LastSettlementDate resLicense in
    months ← monthDiff lastSettlementDate currentDate;
    let supportChargeStr := FormatFloat (supportCharge resLicense months) in
    a1 ← at_index args 1;
    let args1 := [a1; supportChargeStr] in
    _ ← addActivityToAccount args1;
    let resLicense := set_LastSettlementDate resLicense currentDate in
    let licenseAsBytes := marshal_license resLicense in
    a0 ← at_index args 0;
    err ← PutState a0 licenseAsBytes;
    _ ← return_if_put_failed err;
    mret ok).

  (** *** next_period *)

Definition months : list string :=
    ["Jan"; "Feb"; "Mar"; "Apr"; "May"; "Jun"; "Jul"; "Aug"; "Sep"; "Oct"; "Nov"; "Dec"].

  (** The loop over [months] from index [i] on: [rest] is [months[i:]] and
      [new] the pair of [newMonthPeriod] and [newYearPeriod] so far. *)
Fixpoint scan_months (rest : list string) (i : nat) (monthPeriod : string)
      (yearPeriod : Z) (new : string * string) : string * string :=
    match rest with
    | [] => new
    | m :: rest' =>
        let new' :=
          if String.eqb monthPeriod m then
            if (i <? length months - 1)%nat
            then (nth (i + 1) months "", FormatInt yearPeriod)
            else ("Jan", FormatInt (add64 yearPeriod 1))
          else new in
        scan_months rest' (S i) monthPeriod yearPeriod new'
    end.

  (** The record rolled into the period [newPeriod]. *)
Definition rolled (resAccount : IntercompanyAccount) (newPeriod : string) : IntercompanyAccount :=
    {| AccountKey := AccountKey resAccount;
       DueToEntityCode := DueToEntityCode resAccount;
       DueFromEntityCode := DueFromEntityCode resAccount;
       DueToEntityName := DueToEntityName resAccount;
       DueFromEntityName := DueFromEntityName resAccount;
       AccountCurrency := AccountCurrency resAccount;
       Period := newPeriod;
       OpeningBalance := PeriodToDateBalance resAccount;
       Activity := FormatFloat PrimFloat.zero;
       PeriodToDateBalance := PeriodToDateBalance resAccount;
       AccountNo := AccountNo resAccount;
       AccountName := AccountName resAccount |}.

Definition next_period (args : list string) : M response := call (
    _ ← return_if (length args <? 1)%nat (Error "Incorrect number of arguments. Expecting 1");
    a0 ← at_index args 0;
    '(account, err) ← GetState a0;
    _ ← return_if err (Error "Failed to get the account");
    let resAccount := unmarshal_account account in
    monthPeriod ← substr (Period resAccount) 0 3;
    y ← substr (Period resAccount) 4 6;
    let yearPeriod := fst (ParseInt y) in
    let '(newMonthPeriod, newYearPeriod) :=
      scan_months months 0 monthPeriod yearPeriod ("", "") in
    let newPeriod := newMonthPeriod ++ "-" ++ newYearPeriod in
    let resAccount := rolled resAccount newPeriod in
    let accountAsBytes := marshal_account resAccount in
    a1 ← at_index args 1;
    err ← PutState a1 accountAsBytes;
    _ ← return_if_put_failed err;
    mret ok).

  (** *** delete_license *)

  (** The loop that cuts the first element equal to [licenseKey] out of the
      index and stops. *)
Fixpoint remove_first (licenseKey : string) (licenseIndex : list string) : list string :=
    match licenseIndex with
    | [] => []
    | val :: rest =>
        if String.eqb val licenseKey then rest else val :: remove_first licenseKey rest
    end.

Definition delete_license (args : list string) : M response := call (
    _ ← return_if (negb (length args =? 1)%nat) (Error "Incorrect number of arguments. Expecting 1");
    licenseKey ← at_index args 0;
    err ← DelState licenseKey;
    _ ← return_if err (Error "Failed to delete state");
    '(licensesAsBytes, err) ← GetState LicenseIndexStr;
    _ ← return_if err (Error "Failed to get license index");
    let licenseIndex := unmarshal_strings licensesAsBytes in
    let licenseIndex := remove_first licenseKey <$> licenseIndex in
    let jsonAsBytes := marshal_strings licenseIndex in
    _ ← PutState LicenseIndexStr jsonAsBytes;
    mret ok).

  (** *** transfer_license *)

  (** [transferedQuantity * months * licensePrice / 60]. *)
Definition licenseCharge (transferedQuantity : float) (months : Z) (licensePrice : float) : float :=
    (transferedQuantity * Float64.of_int months * licensePrice / 60)%float.

Definition transfer_license (currentDate : string) (args : list string) : M response := call (
    _ ← return_if (negb (length args =? 7)%nat) (Error "Incorrect number of arguments. Expecting 7");
    a0 ← at_index args 0;
    '(licenseAAsBytes, err) ← GetState a0;
    _ ← return_if err (Error "Failed to get the license");
    let resLicenseA := unmarshal_license licenseAAsBytes in
    let licensePartNo := LicensePartNo resLicenseA in
    let originalQuantity := fst (ParseFloat (Quantity resLicenseA)) in
    let licenseStartDate := LicenseStartDate resLicenseA in
    months ← monthDiff licenseStartDate currentDate;
    let licensePrice := fst (ParseFloat (LicensePrice resLicenseA)) in
    a2 ← at_index args 2;
    let '(transferedQuantity, err) := ParseFloat a2 in
    let charge := licenseCharge transferedQuantity months licensePrice in
    let negLicenseCharge := (- charge)%float in
    let licenseChargeStr := FormatFloat charge in
    let negLicenseChargeStr := FormatFloat negLicenseCharge in
    _ ← return_if (bool_decide (is_Some err)) (Error "3rd argument must be a numeric string");
    _ ← return_if (originalQuantity <? transferedQuantity)%float (Error "No enough license to transfer");
    a1 ← at_index args 1;
    let newLicenseKey := licensePartNo ++ "_" ++ a1 in
    '(licenseBAsBytes, err) ← GetState newLicenseKey;
    _ ← return_if err (Error "Failed to get license");
    let resLicenseB := unmarshal_license licenseBAsBytes in
    a3 ← at_index args 3;
    a4 ← at_index args 4;
    _ ← (if String.eqb (LicenseKey resLicenseB) newLicenseKey then
           a6 ← at_index args 6;
           _ ← settle_bill currentDate [newLicenseKey; a6];
           let previousQuantity := fst (ParseFloat (Quantity resLicenseB)) in
           let resLicenseB :=
             set_Quantity resLicenseB (FormatFloat (previousQuantity + transferedQuantity)%float) in
           let resLicenseB := set_LastSettlementDate resLicenseB currentDate in
           let licenseB := marshal_license resLicenseB in
           err ← PutState newLicenseKey licenseB;
           _ ← return_if_put_failed err;
           _ ← addActivityToAccount [a3; licenseChargeStr];
           _ ← addActivityToAccount [a4; negLicenseChargeStr];
           mret tt
         else
           _ ← create_license
                 [ licensePartNo; a1; a2; LicensePrice resLicenseA; SupportFee resLicenseA;
                   LicenseStartDate resLicenseA; LicenseEndDate resLicenseA;
                   SupportStartDate resLicenseA; SupportEndDate resLicenseA;
                   Currency resLicenseA; currentDate ];
           _ ← addActivityToAccount [a3; licenseChargeStr];
           _ ← addActivityToAccount [a4; negLicenseChargeStr];
           mret tt);
    a5 ← at_index args 5;
    _ ← (if (originalQuantity =? transferedQuantity)%float then
           _ ← settle_bill currentDate [a0; a5];
           _ ← delete_license [a0];
           mret tt
         else
           _ ← settle_bill currentDate [a0; a5];
           let resLicenseA :=
             set_Quantity resLicenseA (FormatFloat (originalQuantity - transferedQuantity)%float) in
           let resLicenseA := set_LastSettlementDate resLicenseA currentDate in
           let licenseA := marshal_license resLicenseA in
           err ← PutState a0 licenseA;
           return_if_put_failed err);
    mret ok).

  (** *** Invoke *)

Definition Invoke (currentDate : string) (function : string) (args : list string) : M response :=
    call (
      if String.eqb function "init" then Init args
      else if String.eqb function "read" then read args
      else if String.eqb function "create_account" then create_account args
      else if String.eqb function "create_license" then create_license args
      else if String.eqb function "transfer_license" then transfer_license currentDate args
      else if String.eqb function "delete_license" then delete_license args
      else if String.eqb function "settle_bill" then settle_bill currentDate args
      else if String.eqb function "next_period" then next_period args
      else return_ (Error ("Received unknown invoke function name - '" ++ function ++ "'"))).

End Chaincode.

(** ** Dates in the form month-day-year *)

Module Date.
Import GoString.

Definition two_digits (n : Z) : string :=
    String (digit_char (n / 10)) (String (digit_char (n mod 10)) EmptyString).

Definition four_digits (n : Z) : string :=
    String (digit_char (n / 1000)) (String (digit_char (n / 100 mod 10))
      (two_digits (n mod 100))).

  (** The text MM-DD-YYYY of a month, a day and a year. *)
Definition text (month day year : Z) : string :=
    two_digits month ++ "-" ++ two_digits day ++ "-" ++ four_digits year.

  (** A string of ten bytes: digits but for a dash after the month and after
      the day. *)
Definition well_formed (s : string) : bool :=
    match s with
    | String m1 (String m2 (String s1 (String d1 (String d2 (String s2
        (String y1 (String y2 (String y3 (String y4 EmptyString))))))))) =>
        forallb is_digit [m1; m2; d1; d2; y1; y2; y3; y4]
        && Ascii.eqb s1 "-"%char && Ascii.eqb s2 "-"%char
    | _ => false
    end.

  (** The number a run of digit bytes denotes, read from the left. *)
Definition number (ds : list ascii) : Z :=
    fold_left (fun acc c => 10 * acc + digit_val c) ds 0.

  (** Month, day and year of a string in that form, by the place values of
      its digits. *)
Definition month (s : string) : Z :=
    match s with
    | String m1 (String m2 _) => number [m1; m2]
    | _ => 0
    end.

Definition day (s : string) : Z :=
    match s with
    | String _ (String _ (String _ (String d1 (String d2 _)))) => number [d1; d2]
    | _ => 0
    end.

Definition year (s : string) : Z :=
    match s with
    | String _ (String _ (String _ (String _ (String _ (String _
        (String y1 (String y2 (String y3 (String y4 _))))))))) => number [y1; y2; y3; y4]
    | _ => 0
    end.

End Date.

(** ** The two kinds of entity and their creation *)

Inductive entity : Type := account | license.

Section Entities.
Context {conv : StrconvFloat} {ledger : Ledger}.

Definition create (e : entity) : list string -> M response :=
  match e with
  | account => create_account
  | license => create_license
  end.

Definition index_key (e : entity) : string :=
  match e with
  | account => AccountIndexStr
  | license => LicenseIndexStr
  end.

(** The key create_account and create_license derive from their arguments. *)
Definition entity_key (e : entity) (args : list string) : string :=
  match e with
  | account => nth 0 args "" ++ "_" ++ nth 1 args "" ++ "_" ++ nth 8 args ""
  | license => nth 0 args "" ++ "_" ++ nth 1 args ""
  end.

Definition not_numeric (s : string) : bool :=
  bool_decide (is_Some (snd (ParseFloat s))).

(** The record stored under [key] carries [key] as its own key field: the
    test by which the chaincode takes an entity to exist. *)
Definition holds (e : entity) (w : world) (key : string) : bool :=
  match e with
  | account => String.eqb (AccountKey (Codec.unmarshal_account (w !! key))) key
  | license => String.eqb (LicenseKey (Codec.unmarshal_license (w !! key))) key
  end.

(** The four reasons to refuse a creation before anything is written: a
    wrong number of arguments, an amount that is not numeric, a failed read
    of the derived key, a record already present under it. *)
Definition refused (e : entity) (args : list string) (w : world) : bool :=
  match e with
  | account =>
      negb (length args =? 10)%nat
      || not_numeric (nth 6 args "") || not_numeric (nth 7 args "")
  | license =>
      negb (length args =? 11)%nat
      || not_numeric (nth 2 args "") || not_numeric (nth 3 args "")
      || not_numeric (nth 4 args "")
  end
  || get_fails (entity_key e args) || holds e w (entity_key e args).

(** The keys an index lists: none when the bytes under the index key are not
    an array. *)
Definition index_of (e : entity) (w : world) : list string :=
  default [] (Json.unmarshal_strings (w !! index_key e)).

(** [key] occurs once at most in the license index. *)
Definition once (key : string) (w : world) : Prop :=
  key ∉ remove_first key (index_of license w).

End Entities.

(** ** The balance of an account record *)

Section Balance.
Context {conv : StrconvFloat}.

(** The number a stored amount denotes. *)
Definition amount (s : string) : float := fst (ParseFloat s).


(** [x] is written as plain text that reads back as [x]. *)
Definition faithful (x : float) : Prop :=
  Json.plain (FormatFloat x) = true /\ amount (FormatFloat x) = x.

(** Adding [x] to the balance and to the activity of [a] separately agrees
    with adding the opening balance to the new activity. *)
Definition exact_posting (a : IntercompanyAccount) (x : float) : Prop :=
  (amount (PeriodToDateBalance a) + x
   =? amount (OpeningBalance a) + (amount (Activity a) + x))%float = true.

End Balance.

Section Lifecycle.
Context {conv : StrconvFloat} {ledger : Ledger}.

(** The records of an account's life: the one create_account stores, then
    those that postings and rollovers compute from it.  Each step carries
    what the arithmetic needs: amounts whose text reads back, a sum that is a
    number at creation, a posting that is exact. *)
Inductive kept : IntercompanyAccount -> Prop :=
  | kept_created args w w' :
      create_account args w = Next ok w' ->
      forallb Json.plain args = true ->
      faithful (amount (nth 6 args "")) ->
      faithful (amount (nth 7 args "")) ->
      faithful (amount (nth 6 args "") + amount (nth 7 args ""))%float ->
      Float64.is_nan (amount (nth 6 args "") + amount (nth 7 args ""))%float = false ->
      kept (Codec.unmarshal_account (w' !! entity_key account args))
  | kept_posted a x :
      kept a ->
      faithful (amount (Activity a) + x)%float ->
      faithful (amount (PeriodToDateBalance a) + x)%float ->
      exact_posting a x ->
      kept (post a x)
  | kept_rolled a newPeriod :
      kept a ->
      faithful PrimFloat.zero ->
      kept (rolled a newPeriod).

End Lifecycle.

(** ** Invocations and the consistency of the indexes *)

Inductive invocation : Type :=
  | CreateAccount (args : list string)
  | CreateLicense (args : list string)
  | DeleteLicense (args : list string)
  | TransferLicense (currentDate : string) (args : list string).

Section Consistency.
Context {conv : StrconvFloat} {ledger : Ledger}.

Definition invoke (i : invocation) : M response :=
  match i with
  | CreateAccount args => create_account args
  | CreateLicense args => create_license args
  | DeleteLicense args => delete_license args
  | TransferLicense currentDate args => transfer_license currentDate args
  end.

(** The host keeps the writes of an invocation that answers with success
    and drops those of one that answers with an error or panics. *)
Definition commit (i : invocation) (w : world) : world :=
  match invoke i w with
  | Next (Success _) w' => w'
  | _ => w
  end.

(** An entity of kind [e] lives under [key]: the record there carries [key]
    as its key. *)
Definition live (e : entity) (w : world) (key : string) : Prop :=
  key <> "" /\ holds e w key = true.



(** The key under which transfer_license looks for the license of the
    target entity. *)
Definition target_key (w : world) (args : list string) : string :=
  LicensePartNo (Codec.unmarshal_license (w !! nth 0 args "")) ++ "_" ++ nth 1 args "".

Definition index_keys : list string := [LicenseIndexStr; AccountIndexStr].

(** The invocations under which the indexes stay consistent: text arguments
    are plain; a key to create is no index key and not listed in the index of
    the other kind; a key to delete neither. *)
Definition admissible (w : world) (i : invocation) : Prop :=
  match i with
  | CreateAccount args =>
      forallb Json.plain args = true
      /\ (entity_key account args ∉ index_of license w)
  | CreateLicense args =>
      forallb Json.plain args = true
      /\ (entity_key license args ∉ index_of account w)
      /\ (entity_key license args ∉ index_keys)
  | DeleteLicense args =>
      (nth 0 args "" ∉ index_of account w) /\ (nth 0 args "" ∉ index_keys)
  | TransferLicense currentDate args =>
      Json.plain currentDate = true
      /\ forallb Json.plain args = true
      /\ (target_key w args ∉ index_of account w)
      /\ (target_key w args ∉ index_keys)
  end.

(** The worlds that admissible invocations reach from an initialized empty
    ledger. *)
Inductive reachable : world -> Prop :=
  | reachable_init args w0 :
      Init args ∅ = Next ok w0 -> reachable w0
  | reachable_commit w i :
      reachable w -> admissible w i -> reachable (commit i w).

(** A key with an underscore, as the keys of accounts and licenses are. *)
Definition entity_like (key : string) : Prop := (1 <= GoString.count "_" key)%nat.

(** The text of an amount: not empty, no underscore. *)
Definition amount_like (key : string) : Prop :=
  key <> "" /\ GoString.count "_" key = 0%nat.


(** A record that carries a license date. *)
Definition dated (l : License) : Prop :=
  LicenseStartDate l <> "" \/ LastSettlementDate l <> "".


(** The texts FormatFloat writes are amounts in plain text. *)
Definition clean_format : Prop :=
  forall x, amount_like (FormatFloat x) /\ Json.plain (FormatFloat x) = true.

(** The ledger fails no read and no delete, and no put but under the empty
    key. *)
Definition obedient : Prop :=
  (forall key, get_fails key = false)
  /\ (forall key, del_fails key = false)
  /\ (forall key, key <> "" -> put_fails key = None).

Definition other (e : entity) : entity :=
  match e with
  | account => license
  | license => account
  end.

(** The key field of kind [e] in a stored value. *)
Definition key_field (e : entity) (bytes : option doc) : string :=
  match e with
  | account => AccountKey (Codec.unmarshal_account bytes)
  | license => LicenseKey (Codec.unmarshal_license bytes)
  end.

(** The values create_account and create_license put under the key of the
    entity. *)
Definition account_text (args : list string) : doc :=
  Json.object_of_text
    [ ("accountKey", entity_key account args);
      ("dueToEntityCode", nth 0 args "");
      ("dueFromEntityCode", nth 1 args "");
      ("dueToEntityName", nth 2 args "");
      ("dueFromEntityName", nth 3 args "");
      ("currency", nth 4 args "");
      ("period", nth 5 args "");
      ("openingBalance", FormatFloat (amount (nth 6 args "")));
      ("activity", FormatFloat (amount (nth 7 args "")));
      ("periodToDateBalance",
       FormatFloat (amount (nth 6 args "") + amount (nth 7 args ""))%float);
      ("accountNo", nth 8 args "");
      ("accountName", nth 9 args "") ].

Definition license_text (args : list string) : doc :=
  Json.object_of_text
    [ ("licenseKey", entity_key license args);
      ("licensePartNo", nth 0 args "");
      ("baseEntityCode", nth 1 args "");
      ("quantity", FormatFloat (amount (nth 2 args "")));
      ("licensePrice", FormatFloat (amount (nth 3 args "")));
      ("supportFee", FormatFloat (amount (nth 4 args "")));
      ("licenseStartDate", nth 5 args "");
      ("licenseEndDate", nth 6 args "");
      ("supportStartDate", nth 7 args "");
      ("supportEndDate", nth 8 args "");
      ("currency", nth 9 args "");
      ("LastSettlementDate", nth 10 args "") ].

Definition entity_text (e : entity) (args : list string) : doc :=
  match e with
  | account => account_text args
  | license => license_text args
  end.

(** The world after the record of a new entity is put and its key appended
    to the index of its kind. *)
Definition created (e : entity) (args : list string) (w : world) : world :=
  <[index_key e :=
      Json.marshal_strings
        (append (Json.unmarshal_strings (<[entity_key e args := entity_text e args]> w
                                         !! index_key e))
           (entity_key e args))]>
    (<[entity_key e args := entity_text e args]> w).

(** The value delete_license leaves under the index key. *)
Definition cut_index (key : string) (w : world) : doc :=
  Json.marshal_strings
    (remove_first key <$> Json.unmarshal_strings (delete key w !! LicenseIndexStr)).




End Consistency.

(** A byte of the text of an amount: plain, and no underscore. *)
Definition amount_char (c : ascii) : bool :=
  Json.plain_char c && negb (Ascii.eqb "_"%char c).

Fixpoint amount_text (s : string) : bool :=
  match s with
  | EmptyString => true
  | String c r => amount_char c && amount_text r
  end.




(** ** Sample arguments: the account and the license of the specification's
    scenarios *)

Definition sample_account : list string :=
  ["A"; "B"; "Alpha"; "Beta"; "USD"; "Jan-2024"; "1000"; "0"; "1"; "Cash"].

Definition sample_license : list string :=
  ["P1"; "E1"; "10"; "120"; "12"; "01-01-2024"; "12-31-2026"; "01-01-2024";
   "12-31-2026"; "USD"; "01-01-2024"].

(** The world an operation leaves behind. *)
Definition after {A : Type} (m : M A) (w : world) : world :=
  match m w with
  | Next _ w' | Return _ w' | Panic w' => w'
  end.

(** The ledger as Init leaves it. *)
Definition fresh_world : world := after (Init ["1"]) ∅.

(** The initialized ledger with the sample account and the sample license. *)
Definition sample_world : world :=
  after (create_license sample_license)
    (after (create_account sample_account) fresh_world).

Definition sample_account_record : IntercompanyAccount :=
  {| AccountKey := "A_B_1"; DueToEntityCode := "A"; DueFromEntityCode := "B";
     DueToEntityName := "Alpha"; DueFromEntityName := "Beta"; AccountCurrency := "USD";
     Period := "Jan-2024"; OpeningBalance := "1E+03"; Activity := "0E+00";
     PeriodToDateBalance := "1E+03"; AccountNo := "1"; AccountName := "Cash" |}.

Definition sample_license_record : License :=
  {| LicenseKey := "P1_E1"; LicensePartNo := "P1"; BaseEntityCode := "E1";
     Quantity := "1E+01"; LicensePrice := "1.2E+02"; SupportFee := "1.2E+01";
     LicenseStartDate := "01-01-2024"; LicenseEndDate := "12-31-2026";
     SupportStartDate := "01-01-2024"; SupportEndDate := "12-31-2026";
     Currency := "USD"; LastSettlementDate := "01-01-2024" |}.

(** The months between two dates as a value: [None] where a slice of
    monthDiff is out of range. *)
Definition months_between (dateA dateB : string) : option Z :=
  match monthDiff dateA dateB ∅ with
  | Next months _ => Some months
  | _ => None
  end.




(** * The invoice chaincode

    After the license chaincode, intercompanyA.go holds a second program, of
    the older shim whose functions return bytes and an error: invoices that a
    seller creates, a financier accepts and the buyer approves or rejects,
    and the queries over them.  Its functions carry the names of the first
    program, so its embedding is a module of its own.  What the functions
    print to the standard output is left out. *)

Module Invoices.
Import GoString.

Definition SELLER : string := "seller".
Definition BUYER : string := "buyer".
Definition FINANCIER : string := "financier".

Record Invoice : Type := mkInvoice {
  InvoiceId : string;
  Amount : string;
  Currency : string;
  Seller : string;
  Buyer : string;
  DueDate : string;
  Status : string;
  Financier : string;
  Discount : string
}.

Record Invoice_Holder : Type := mkHolder {
  Invoices : strings
}.

(** [var inv Invoice]: the zero value. *)
Definition no_invoice : Invoice := mkInvoice "" "" "" "" "" "" "" "" "".

(** ** Stored values

    As for the first program a stored value is kept as the JSON document its
    bytes denote.  The documents of this program are objects whose members
    are strings, arrays of strings or [null]; other bytes are kept as text,
    and [json.Unmarshal] rejects them and leaves its target as it was. *)

Inductive value : Type :=
  | Str (s : string)
  | Arr (items : list string)
  | Null.

Inductive stored : Type :=
  | Obj (members : list (string * value))
  | Raw (text : string).

Abbreviation world := (gmap string stored).

(** [[]byte] as the functions return it: stored bytes and marshalled
    structs are documents, built strings are text. *)
Inductive bytes : Type :=
  | Doc (d : stored)
  | Text (s : string).

(** [([]byte, error)]: an error is its message. *)
Definition reply : Type := option bytes * option string.

(** The member named [name] is for the struct field tagged [tag]: names
    match without regard to letter case. *)
Definition names (name tag : string) : bool :=
  String.eqb (fold_case name) (fold_case tag).

(** The string [json.Unmarshal] leaves in the string field tagged [tag] of a
    zero struct: that of the last member for the field that is a string;
    [null] leaves the field as it is, and so does an array, which is the
    error [mismatch] reports. *)
Definition field (tag : string) (ms : list (string * value)) : string :=
  fold_left
    (fun acc kv =>
       if names (fst kv) tag
       then match snd kv with Str s => s | _ => acc end
       else acc)
    ms "".

Definition invoice_tags : list string :=
  ["invoiceid"; "amount"; "currency"; "seller"; "buyer"; "duedate"; "status";
   "financier"; "discount"].

(** A member for a string field that is an array: [json.Unmarshal] goes on
    and returns an [UnmarshalTypeError] in the end. *)
Definition mismatch (ms : list (string * value)) : bool :=
  existsb
    (fun kv =>
       match snd kv with
       | Arr _ => existsb (names (fst kv)) invoice_tags
       | _ => false
       end)
    ms.

Definition invoice_of (ms : list (string * value)) : Invoice :=
  {| InvoiceId := field "invoiceid" ms;
     Amount := field "amount" ms;
     Currency := field "currency" ms;
     Seller := field "seller" ms;
     Buyer := field "buyer" ms;
     DueDate := field "duedate" ms;
     Status := field "status" ms;
     Financier := field "financier" ms;
     Discount := field "discount" ms |}.

(** [json.Unmarshal(bytes, &inv)] for a zero [inv]: the struct and whether
    an error is returned.  Nil bytes are an error (unexpected end of JSON
    input). *)
Definition unmarshal_invoice (b : option stored) : Invoice * bool :=
  match b with
  | Some (Obj ms) => (invoice_of ms, mismatch ms)
  | _ => (no_invoice, true)
  end.

Definition marshal_invoice (inv : Invoice) : stored :=
  Obj [ ("invoiceid", Str (InvoiceId inv));
        ("amount", Str (Amount inv));
        ("currency", Str (Currency inv));
        ("seller", Str (Seller inv));
        ("buyer", Str (Buyer inv));
        ("duedate", Str (DueDate inv));
        ("status", Str (Status inv));
        ("financier", Str (Financier inv));
        ("discount", Str (Discount inv)) ].

(** [json.Unmarshal(bytes, &invoiceIDs)] for a zero holder: an array sets
    the slice, [null] sets it to nil, a string is a type error. *)
Definition holder_of (ms : list (string * value)) : Invoice_Holder :=
  {| Invoices :=
       fold_left
         (fun acc kv =>
            if names (fst kv) "invoices"
            then match snd kv with
                 | Arr l => Some l
                 | Null => None
                 | Str _ => acc
                 end
            else acc)
         ms None |}.

Definition holder_mismatch (ms : list (string * value)) : bool :=
  existsb
    (fun kv => match snd kv with Str _ => names (fst kv) "invoices" | _ => false end)
    ms.

Definition unmarshal_holder (b : option stored) : Invoice_Holder * bool :=
  match b with
  | Some (Obj ms) => (holder_of ms, holder_mismatch ms)
  | _ => (mkHolder None, true)
  end.

Definition marshal_holder (h : Invoice_Holder) : stored :=
  Obj [ ("invoices", match Invoices h with Some l => Arr l | None => Null end) ].

(** ** Text

    Two places work on JSON as text: create_invoice spells an object and has
    [json.Unmarshal] read it, and the two listings splice marshalled invoices
    into a text of their own.  [object_of] is the reading of package json of
    a text as an object ([None] where it reports a syntax error), [text_of]
    the bytes of a document as a string. *)

Class JsonText : Type := {
  object_of : string -> option (list (string * value));
  text_of : stored -> string
}.

(** ** The caller's certificate and the control of a function body *)

(** [stub.ReadCertAttribute]: the attribute's bytes or the error of the
    shim. *)
Class Caller : Type := {
  cert_attribute : string -> string + string
}.

Inductive outcome (R A : Type) : Type :=
  | Next (a : A) (w : world)
  | Return (r : R) (w : world)
  | Panic (w : world).
Arguments Next {R A} a w.
Arguments Return {R A} r w.
Arguments Panic {R A} w.

(** A function body that returns an [R] and has come to a value of [A]. *)
Definition M (R A : Type) : Type := world -> outcome R A.

#[export] Instance M_ret {R : Type} : MRet (M R) := fun A a w => Next a w.
#[export] Instance M_bind {R : Type} : MBind (M R) := fun A B f m w =>
  match m w with
  | Next a w' => f a w'
  | Return r w' => Return r w'
  | Panic w' => Panic w'
  end.

Definition return_ {R A : Type} (r : R) : M R A := fun w => Return r w.

Definition panic {R A : Type} : M R A := fun w => Panic w.

Definition return_if {R : Type} (c : bool) (r : R) : M R unit :=
  if c then return_ r else mret tt.

(** A call from a body that returns an [R']. *)
Definition call {R R' : Type} (body : M R R) : M R' R := fun w =>
  match body w with
  | Next r w' | Return r w' => Next r w'
  | Panic w' => Panic w'
  end.

Definition at_index {R : Type} (args : list string) (i : nat) : M R string :=
  match args !! i with
  | Some a => mret a
  | None => panic
  end.

(** [errors.New(msg)] returned with nil bytes. *)
Definition failure (msg : string) : reply := (None, Some msg).

Definition is_error (err : option string) : bool := bool_decide (is_Some err).

Section Program.
Context {json : JsonText} {caller : Caller} {ledger : Ledger}.

Definition GetState {R : Type} (key : string) : M R (option stored * bool) := fun w =>
  if get_fails key then Next (None, true) w else Next (w !! key, false) w.

Definition PutState {R : Type} (key : string) (v : stored) : M R (option string) := fun w =>
  match put_fails key with
  | Some e => Next (Some e) w
  | None => Next None (<[key := v]> w)
  end.

Definition ReadCertAttribute (name : string) : reply :=
  match cert_attribute name with
  | inl v => (Some (Text v), None)
  | inr e => (None, Some e)
  end.

(** [string(b)] of returned bytes. *)
Definition string_of (b : option bytes) : string :=
  match b with
  | Some (Doc d) => text_of d
  | Some (Text s) => s
  | None => ""
  end.

(** *** Init *)

Definition Init (function : string) (args : list string) : M reply reply := call (
  let invoiceIDs := mkHolder None in
  let bytes := marshal_holder invoiceIDs in
  err ← PutState "invoiceIDs" bytes;
  _ ← return_if (is_error err) (failure "Error putting state with invoiceIDs");
  mret (None, None)).

(** *** get_username and get_role *)

Definition get_username : string * option string :=
  let '(role, err) := ReadCertAttribute "username" in
  if is_error err then ("", Some "Couldn't retrieve username for caller.")
  else (string_of role, None).

Definition get_role : string * option string :=
  let '(role, err) := ReadCertAttribute "role" in
  if is_error err then ("", Some "Couldn't retrieve role for caller.")
  else (string_of role, None).

(** *** retrieve_invoice *)

Definition stored_text (b : option stored) : string :=
  match b with
  | Some d => text_of d
  | None => ""
  end.

Definition retrieve_invoice {R : Type} (invoiceId : string) : M R (Invoice * option string) :=
  call (
    let inv := no_invoice in
    '(bytes, err) ← GetState invoiceId;
    _ ← return_if err
          (inv, Some ("RETRIEVE_INVOICE: Error retrieving invoice with invoice Id = "
                      ++ invoiceId));
    let '(inv, err) := unmarshal_invoice bytes in
    _ ← return_if err
          (inv, Some ("RETRIEVE_INVOICE: Corrupt invoice record " ++ stored_text bytes));
    mret (inv, None)).

(** *** save_changes *)

Definition save_changes {R : Type} (inv : Invoice) : M R (bool * option string) := call (
  let bytes := marshal_invoice inv in
  err ← PutState (InvoiceId inv) bytes;
  _ ← return_if (is_error err) (false, Some "Error storing invoice record");
  mret (true, None)).

(** *** read *)

Definition read (args : list string) : M reply reply := call (
  _ ← return_if (negb (length args =? 1)%nat)
        (failure "Incorrect number of arguments. Expecting name of the var to query");
  name ← at_index args 0;
  '(valAsbytes, err) ← GetState name;
  _ ← return_if err
        (failure ("{" ++ Json.quote ++ "Error" ++ Json.quote ++ ":" ++ Json.quote
                  ++ "Failed to get state for " ++ name ++ Json.quote ++ "}"));
  mret (Doc <$> valAsbytes, None)).

(** *** create_invoice *)

(** The text create_invoice spells. *)
Definition invoice_json (invoiceId amount username buyer discount : string) : string :=
  "{ " ++ Json.quote ++ "invoiceid" ++ Json.quote ++ ": " ++ Json.quote ++ invoiceId
  ++ Json.quote ++ ", " ++ Json.quote ++ "amount" ++ Json.quote ++ ": " ++ Json.quote ++ amount
  ++ Json.quote ++ ", " ++ Json.quote ++ "currency" ++ Json.quote ++ ": " ++ Json.quote ++ "USD"
  ++ Json.quote ++ ", " ++ Json.quote ++ "seller" ++ Json.quote ++ ": " ++ Json.quote ++ username
  ++ Json.quote ++ ", " ++ Json.quote ++ "buyer" ++ Json.quote ++ ": " ++ Json.quote ++ buyer
  ++ Json.quote ++ ", " ++ Json.quote ++ "duedate" ++ Json.quote ++ ": " ++ Json.quote
  ++ "UNDEFINED"
  ++ Json.quote ++ ", " ++ Json.quote ++ "status" ++ Json.quote ++ ": " ++ Json.quote ++ "0"
  ++ Json.quote ++ ", " ++ Json.quote ++ "financier" ++ Json.quote ++ ":" ++ Json.quote
  ++ "UNDEFINED"
  ++ Json.quote ++ ", " ++ Json.quote ++ "discount" ++ Json.quote ++ ":" ++ Json.quote ++ discount
  ++ Json.quote ++ "}".

(** [json.Unmarshal([]byte(text), &inv)] for a zero [inv]. *)
Definition unmarshal_text (text : string) : Invoice * bool :=
  match object_of text with
  | Some ms => (invoice_of ms, mismatch ms)
  | None => (no_invoice, true)
  end.

(** [append(invoiceIDs.Invoices, invoiceId)]. *)
Definition appended (h : Invoice_Holder) (invoiceId : string) : Invoice_Holder :=
  mkHolder (Some (default [] (Invoices h) ++ [invoiceId])%list).

Definition create_invoice (args : list string) : M reply reply := call (
  invoiceId ← at_index args 0;
  let '(username, _) := get_username in
  a1 ← at_index args 1;
  a3 ← at_index args 3;
  a2 ← at_index args 2;
  let invoice_json := invoice_json invoiceId a1 username a3 a2 in
  let '(inv, err) := unmarshal_text invoice_json in
  _ ← return_if err (failure "Invalid JSON object");
  '(record, _) ← GetState (InvoiceId inv);
  _ ← return_if (bool_decide (is_Some record)) (failure "Invoice already exists");
  let '(role, _) := get_role in
  _ ← return_if (negb (String.eqb role SELLER))
        (failure ("Permission Denied. create_invoice. " ++ role ++ " !== " ++ SELLER));
  '(_, err) ← save_changes inv;
  _ ← return_if (is_error err) (failure "Error saving changes");
  '(bytes, err) ← GetState "invoiceIDs";
  _ ← return_if err (failure "Unable to get invoiceIDs");
  let '(invoiceIDs, err) := unmarshal_holder bytes in
  _ ← return_if err (failure "Corrupt Invoice_Holder record");
  let invoiceIDs := appended invoiceIDs invoiceId in
  let bytes := marshal_holder invoiceIDs in
  err ← PutState "invoiceIDs" bytes;
  _ ← return_if (is_error err) (failure "Unable to put the state");
  mret (None, None)).

(** *** accept_trade, approve_trade and reject_trade *)

Definition set_Status (inv : Invoice) (status : string) : Invoice :=
  {| InvoiceId := InvoiceId inv; Amount := Amount inv; Currency := Currency inv;
     Seller := Seller inv; Buyer := Buyer inv; DueDate := DueDate inv;
     Status := status; Financier := Financier inv; Discount := Discount inv |}.

Definition set_Financier (inv : Invoice) (financier : string) : Invoice :=
  {| InvoiceId := InvoiceId inv; Amount := Amount inv; Currency := Currency inv;
     Seller := Seller inv; Buyer := Buyer inv; DueDate := DueDate inv;
     Status := Status inv; Financier := financier; Discount := Discount inv |}.

Definition accept_trade (args : list string) : M reply reply := call (
  let '(username, _) := get_username in
  let '(role, _) := get_role in
  invoiceId ← at_index args 0;
  '(inv, _) ← retrieve_invoice invoiceId;
  _ ← return_if (negb (String.eqb role FINANCIER))
        (failure ("Permission Denied. accept_trade. " ++ role ++ " !== " ++ FINANCIER));
  let inv := set_Financier inv username in
  let inv := set_Status inv "1" in
  '(_, err) ← save_changes inv;
  _ ← return_if (is_error err) (failure "Error saving changes");
  mret (None, None)).

Definition approve_trade (args : list string) : M reply reply := call (
  invoiceId ← at_index args 0;
  let '(username, _) := get_username in
  '(inv, _) ← retrieve_invoice invoiceId;
  _ ← return_if (negb (String.eqb username (Buyer inv)))
        (failure ("Permission Denied. approve_trade. " ++ username ++ " !== " ++ Buyer inv));
  let inv := set_Status inv "2" in
  '(_, err) ← save_changes inv;
  _ ← return_if (is_error err) (failure "Error saving changes");
  mret (None, None)).

Definition reject_trade (args : list string) : M reply reply := call (
  invoiceId ← at_index args 0;
  let '(username, _) := get_username in
  '(inv, _) ← retrieve_invoice invoiceId;
  _ ← return_if (negb (String.eqb username (Buyer inv)))
        (failure ("Permission Denied. reject_trade. " ++ username ++ " !== " ++ Buyer inv));
  _ ← return_if (String.eqb (Status inv) "0")
        (failure "Permission Denied. reject_trade. This invoice hasn't been bought by a third party financier");
  _ ← return_if (String.eqb (Status inv) "2")
        (failure "Permission Denied. reject_trade. This invoice has already been approved.");
  let inv := set_Status inv "0" in
  let inv := set_Financier inv "UNDEFINED" in
  '(_, err) ← save_changes inv;
  _ ← return_if (is_error err) (failure "Error saving changes");
  mret (None, None)).

(** *** Invoke *)

Definition Invoke (function : string) (args : list string) : M reply reply := call (
  if String.eqb function "create_invoice" then create_invoice args
  else if String.eqb function "approve_trade" then approve_trade args
  else if String.eqb function "reject_trade" then reject_trade args
  else if String.eqb function "accept_trade" then accept_trade args
  else return_ (failure ("Received unknown function invocation: " ++ function))).

(** *** get_invoice_details *)

Definition get_invoice_details (inv : Invoice) (caller : string) : reply :=
  let bytes := marshal_invoice inv in
  if String.eqb (Seller inv) caller || String.eqb (Buyer inv) caller
     || String.eqb (Financier inv) caller
  then (Some (Doc bytes), None)
  else failure "Permission Denied. get_invoice_details".

(** *** get_invoices and get_opening_trade_invoices *)

(** The end of both listings: the text closed as an array. *)
Definition closed (result : string) : string :=
  if (String.length result =? 1)%nat then "[]"
  else String.substring 0 (String.length result - 1) result ++ "]".

(** The loop of get_invoices over the invoice ids that are left. *)
Fixpoint details_of (ids : list string) (username : string) (result : string)
  : M reply string :=
  match ids with
  | [] => mret result
  | invoiceId :: rest =>
      '(inv, err) ← retrieve_invoice invoiceId;
      _ ← return_if (is_error err) (failure "Failed to retrieve Invoice");
      let '(temp, err) := get_invoice_details inv username in
      let result := if is_error err then result else result ++ string_of temp ++ "," in
      details_of rest username result
  end.

Definition get_invoices (args : list string) : M reply reply := call (
  '(bytes, err) ← GetState "invoiceIDs";
  _ ← return_if err (failure "Unable to get invoiceIDs");
  let '(username, _) := get_username in
  let '(invoiceIDs, err) := unmarshal_holder bytes in
  _ ← return_if err (failure "Corrupt Invoice_Holder");
  let result := "[" in
  result ← details_of (default [] (Invoices invoiceIDs)) username result;
  let result := closed result in
  mret (Some (Text result), None)).

(** The loop of get_opening_trade_invoices. *)
Fixpoint open_of (ids : list string) (result : string) : M reply string :=
  match ids with
  | [] => mret result
  | invoiceId :: rest =>
      '(inv, err) ← retrieve_invoice invoiceId;
      _ ← return_if (is_error err) (failure "Failed to retrieve Invoice");
      let result :=
        if String.eqb (Status inv) "0"
        then result ++ text_of (marshal_invoice inv) ++ ","
        else result in
      open_of rest result
  end.

Definition get_opening_trade_invoices (args : list string) : M reply reply := call (
  '(bytes, err) ← GetState "invoiceIDs";
  _ ← return_if err (failure "Unable to get invoiceIDs");
  let '(invoiceIDs, err) := unmarshal_holder bytes in
  _ ← return_if err (failure "Corrupt Invoice_Holder");
  let result := "[" in
  result ← open_of (default [] (Invoices invoiceIDs)) result;
  let result := closed result in
  mret (Some (Text result), None)).

(** *** Query *)

Definition Query (function : string) (args : list string) : M reply reply := call (
  if String.eqb function "get_invoice_details" then
    _ ← return_if (negb (length args =? 2)%nat)
          (failure "QUERY: Incorrect number of arguments passed");
    a0 ← at_index args 0;
    '(inv, err) ← retrieve_invoice a0;
    _ ← return_if (is_error err)
          (failure ("QUERY: Error retrieving invoice " ++ default "" err));
    a1 ← at_index args 1;
    return_ (get_invoice_details inv a1)
  else if String.eqb function "get_invoices" then get_invoices args
  else if String.eqb function "get_opening_trade_invoices" then get_opening_trade_invoices args
  else if String.eqb function "read" then read args
  else if String.eqb function "get_username" then return_ (ReadCertAttribute "username")
  else if String.eqb function "get_role" then return_ (ReadCertAttribute "role")
  else return_ (failure ("Received unknown function query " ++ function))).

End Program.

(** ** Vocabulary of the properties *)

(** The members create_invoice spells in its text. *)
Definition spelled (invoiceId amount username buyer discount : string)
  : list (string * value) :=
  [ ("invoiceid", Str invoiceId); ("amount", Str amount); ("currency", Str "USD");
    ("seller", Str username); ("buyer", Str buyer); ("duedate", Str "UNDEFINED");
    ("status", Str "0"); ("financier", Str "UNDEFINED"); ("discount", Str discount) ].

(** The ids the holder lists: none when the bytes under its key are not a
    holder. *)
Definition listed (w : world) : list string :=
  default [] (Invoices (fst (unmarshal_holder (w !! "invoiceIDs")))).

(** The test of get_invoice_details: the caller is a party of the invoice. *)
Definition party (inv : Invoice) (caller : string) : bool :=
  String.eqb (Seller inv) caller || String.eqb (Buyer inv) caller
  || String.eqb (Financier inv) caller.

(** The text of a JSON array of the given element texts. *)
Definition listing (texts : list string) : string :=
  "[" ++ String.concat "," texts ++ "]".

(** The text the loops of the listings build from [result] on. *)
Definition spliced (texts : list string) (result : string) : string :=
  fold_left (fun acc t => acc ++ t ++ ",") texts result.

(** An invoice is open with no financier, or taken, or approved. *)
Definition status_ok (inv : Invoice) : Prop :=
  Status inv = "0" /\ Financier inv = "UNDEFINED"
  \/ Status inv = "1" \/ Status inv = "2".

(** The world an outcome leaves is [w]. *)
Definition unchanged {R A : Type} (o : outcome R A) (w : world) : Prop :=
  match o with
  | Next _ w' | Return _ w' | Panic w' => w' = w
  end.

Inductive invocation : Type :=
  | CreateInvoice (args : list string)
  | AcceptTrade (args : list string)
  | ApproveTrade (args : list string)
  | RejectTrade (args : list string).

Section Reach.
Context {json : JsonText} {ledger : Ledger}.

Definition invoke (caller : Caller) (i : invocation) : M reply reply :=
  match i with
  | CreateInvoice args => create_invoice args
  | AcceptTrade args => accept_trade args
  | ApproveTrade args => approve_trade args
  | RejectTrade args => reject_trade args
  end.

(** The host keeps the writes of an invocation that returns no error and
    drops those of one that returns an error or panics. *)
Definition commit (caller : Caller) (i : invocation) (w : world) : world :=
  match invoke caller i w with
  | Next (_, None) w' => w'
  | _ => w
  end.

(** The text a create_invoice spells is read as the object it spells: so it
    is for arguments and a user name without quotes, backslashes and control
    bytes. *)
Definition reads_as_spelled (caller : Caller) (i : invocation) : Prop :=
  match i with
  | CreateInvoice args =>
      object_of (invoice_json (nth 0 args "") (nth 1 args "") (fst get_username)
                   (nth 3 args "") (nth 2 args ""))
      = Some (spelled (nth 0 args "") (nth 1 args "") (fst get_username)
                (nth 3 args "") (nth 2 args ""))
  | _ => True
  end.

(** The worlds that invocations reach from the deployment on an empty
    ledger, each by a caller of its own. *)
Inductive reachable : world -> Prop :=
  | reachable_init function args w0 :
      Init function args ∅ = Next (None, None) w0 -> reachable w0
  | reachable_commit w caller i :
      reachable w -> reads_as_spelled caller i -> reachable (commit caller i w).

(** The invoices stored under the ids of a list, each read without error. *)
Definition stored_as (w : world) (ids : list string) (invs : list Invoice) : Prop :=
  Forall2 (fun id inv => get_fails id = false /\ unmarshal_invoice (w !! id) = (inv, false))
    ids invs.

(** What holds of every reachable world: the holder is stored, lists no id
    twice and lists ids of stored invoices only, and every other key holds an
    invoice under its own id. *)
Record kept (w : world) : Prop := {
  kept_holder : exists h, w !! "invoiceIDs" = Some (marshal_holder h);
  kept_once : NoDup (listed w);
  kept_listed : forall id, id ∈ listed w -> is_Some (w !! id) /\ id <> "invoiceIDs";
  kept_records : forall key d,
      w !! key = Some d -> key <> "invoiceIDs" ->
      exists inv, d = marshal_invoice inv /\ InvoiceId inv = key /\ status_ok inv
}.

End Reach.

(** ** A reference reading and writing of JSON text

    Objects whose members are strings without escapes, as the program spells
    and marshals them; what is outside that is not read. *)

Module RefJson.

Definition quote_char : ascii := ascii_of_nat 34.

Fixpoint skip_spaces (s : string) : string :=
  match s with
  | String c r => if Ascii.eqb c " "%char then skip_spaces r else s
  | EmptyString => s
  end.

(** After an opening quote: the plain bytes up to the closing quote, and
    the rest. *)
Fixpoint read_plain (s : string) : option (string * string) :=
  match s with
  | EmptyString => None
  | String c r =>
      if Ascii.eqb c quote_char then Some (EmptyString, r)
      else if Json.plain_char c then
        match read_plain r with
        | Some (v, rest) => Some (String c v, rest)
        | None => None
        end
      else None
  end.

Definition read_quoted (s : string) : option (string * string) :=
  match skip_spaces s with
  | String q r => if Ascii.eqb q quote_char then read_plain r else None
  | EmptyString => None
  end.

Fixpoint read_members (fuel : nat) (s : string) : option (list (string * value)) :=
  match fuel with
  | O => None
  | S fuel' =>
      match read_quoted s with
      | Some (k, r1) =>
          match skip_spaces r1 with
          | String c r2 =>
              if Ascii.eqb c ":"%char then
                match read_quoted r2 with
                | Some (v, r3) =>
                    match skip_spaces r3 with
                    | String d r4 =>
                        if Ascii.eqb d ","%char then
                          match read_members fuel' r4 with
                          | Some ms => Some ((k, Str v) :: ms)
                          | None => None
                          end
                        else if Ascii.eqb d "}"%char then
                          match skip_spaces r4 with
                          | EmptyString => Some [(k, Str v)]
                          | _ => None
                          end
                        else None
                    | EmptyString => None
                    end
                | None => None
                end
              else None
          | EmptyString => None
          end
      | None => None
      end
  end.

Definition ref_object_of (s : string) : option (list (string * value)) :=
  match skip_spaces s with
  | String c r => if Ascii.eqb c "{"%char then read_members (String.length s) r else None
  | EmptyString => None
  end.

Definition value_text (v : value) : string :=
  match v with
  | Str s => Json.quote ++ s ++ Json.quote
  | Arr l => "[" ++ String.concat "," (map (fun s => Json.quote ++ s ++ Json.quote) l) ++ "]"
  | Null => "null"
  end.

Definition ref_text_of (d : stored) : string :=
  match d with
  | Obj ms =>
      "{" ++ String.concat ","
               (map (fun kv => Json.quote ++ fst kv ++ Json.quote ++ ":" ++ value_text (snd kv)) ms)
      ++ "}"
  | Raw text => text
  end.

#[export] Instance reference : JsonText :=
  {| object_of := ref_object_of; text_of := ref_text_of |}.

End RefJson.

(** ** Sample callers and worlds *)

(** The world the deployment leaves on an empty, sound ledger. *)
Definition commit_init : world :=
  match @Init sound_ledger "init" [] ∅ with
  | Next _ w | Return _ w | Panic w => w
  end.

Definition party_of (username role : string) : Caller :=
  {| cert_attribute := fun name =>
       if String.eqb name "username" then inl username
       else if String.eqb name "role" then inl role
       else inr "attribute not found" |}.

Definition seller_anna : Caller := party_of "anna" SELLER.
Definition buyer_bob : Caller := party_of "bob" BUYER.
Definition financier_fay : Caller := party_of "fay" FINANCIER.

Definition sample_arguments : list string := ["INV1"; "100.00"; "0.05"; "bob"].

Definition sample_invoice : Invoice :=
  mkInvoice "INV1" "100.00" "USD" "anna" "bob" "UNDEFINED" "0" "UNDEFINED" "0.05".

(** The ledger after the deployment, after anna's invoice INV1 to bob, and
    after fay has accepted it. *)
Definition deployed : world := commit_init.

Definition one_invoice : world :=
  @commit RefJson.reference sound_ledger seller_anna (CreateInvoice sample_arguments) deployed.

Definition taken_invoice : world :=
  @commit RefJson.reference sound_ledger financier_fay (AcceptTrade ["INV1"]) one_invoice.

End Invoices.


(** * Properties *)

(** ** Running the code in a proof *)

Ltac unfold_m :=
  unfold ok, call, at_index, substr, GetState, PutState, DelState,
    return_if_put_failed, return_if, return_, panic, mbind, M_bind, mret, M_ret in *.

Ltac red_m := cbv beta iota zeta; cbn [lookup list_lookup fst snd].

Ltac atomic x :=
  lazymatch x with
  | context [match _ with _ => _ end] => fail
  | _ => idtac
  end.

(** One case distinction on the first test of the code whose operands are
    known. *)
Ltac step :=
  match goal with
  | |- context [match ?x with _ => _ end] => atomic x; destruct x eqn:?
  end; red_m.

(** Names the arguments of a list of known length. *)
Ltac name_args args Hlen :=
  repeat (destruct args as [| ? args]; [discriminate Hlen |]);
  try (destruct args; [| discriminate Hlen]).

(** ** Integers and digits *)

Section Digits.
Import GoString GoInt Strconv.

Lemma wrap64_small z : - 2 ^ 63 <= z < 2 ^ 63 -> wrap64 z = z.
  Proof.
    intros Hz. unfold wrap64. rewrite Z.mod_small; lia.
  Qed.

Lemma digit_range d :
    0 <= d < 10 ->
    d = 0 \/ d = 1 \/ d = 2 \/ d = 3 \/ d = 4 \/ d = 5 \/ d = 6 \/ d = 7 \/ d = 8 \/ d = 9.
  Proof. lia. Qed.

Ltac each_digit H :=
    apply digit_range in H;
    repeat (destruct H as [H | H]; [subst; vm_compute; auto |]); subst; vm_compute; auto.

Lemma is_digit_digit_char d : 0 <= d < 10 -> is_digit (digit_char d) = true.
  Proof. intros Hd. each_digit Hd. Qed.

Lemma digit_val_digit_char d : 0 <= d < 10 -> digit_val (digit_char d) = d.
  Proof. intros Hd. each_digit Hd. Qed.

Lemma digit_char_not_sign d :
    0 <= d < 10 ->
    Ascii.eqb (digit_char d) "-"%char = false /\ Ascii.eqb (digit_char d) "+"%char = false.
  Proof. intros Hd. each_digit Hd. Qed.

Lemma digits_val_cons acc d r :
    0 <= d < 10 ->
    digits_val acc (String (digit_char d) r) = digits_val (10 * acc + d) r.
  Proof.
    intros Hd. cbn [digits_val].
    rewrite is_digit_digit_char, digit_val_digit_char by assumption. reflexivity.
  Qed.

Lemma ParseInt_two_digits n :
    0 <= n < 100 -> ParseInt (Date.two_digits n) = (n, None).
  Proof.
    intros Hn. unfold Date.two_digits, ParseInt.
    assert (Ha : 0 <= n / 10 < 10) by (split; [apply Z.div_pos | apply Z.div_lt_upper_bound]; lia).
    assert (Hb : 0 <= n mod 10 < 10) by (apply Z.mod_pos_bound; lia).
    destruct (digit_char_not_sign _ Ha) as [-> ->]. cbn [orb negb andb].
    rewrite !digits_val_cons by assumption. cbn [digits_val].
    replace (10 * (10 * 0 + n / 10) + n mod 10) with n
      by (pose proof (Z.div_mod n 10); lia).
    destruct (2 ^ 63 <=? n) eqn:E; [apply Z.leb_le in E; lia | reflexivity].
  Qed.

Lemma ParseInt_four_digits n :
    0 <= n < 10000 -> ParseInt (Date.four_digits n) = (n, None).
  Proof.
    intros Hn. unfold Date.four_digits, Date.two_digits, ParseInt.
    assert (Ha : 0 <= n / 1000 < 10) by (split; [apply Z.div_pos | apply Z.div_lt_upper_bound]; lia).
    assert (Hb : 0 <= n / 100 mod 10 < 10) by (apply Z.mod_pos_bound; lia).
    assert (Hc : 0 <= n mod 100 / 10 < 10).
    { pose proof (Z.mod_pos_bound n 100).
      split; [apply Z.div_pos | apply Z.div_lt_upper_bound]; lia. }
    assert (Hd : 0 <= n mod 100 mod 10 < 10) by (apply Z.mod_pos_bound; lia).
    destruct (digit_char_not_sign _ Ha) as [-> ->]. cbn [orb negb andb].
    rewrite !digits_val_cons by assumption. cbn [digits_val].
    replace (10 * (10 * (10 * (10 * 0 + n / 1000) + n / 100 mod 10) + n mod 100 / 10)
             + n mod 100 mod 10) with n.
    - destruct (2 ^ 63 <=? n) eqn:E; [apply Z.leb_le in E; lia | reflexivity].
    - pose proof (Z.div_mod n 1000). pose proof (Z.div_mod n 100).
      pose proof (Z.div_mod (n / 100) 10). pose proof (Z.div_mod (n mod 100) 10).
      assert (n / 100 / 10 = n / 1000) by (rewrite Z.div_div by lia; reflexivity).
      lia.
  Qed.

End Digits.

(** ** monthDiff *)

Section MonthDiff.
Import GoInt Strconv.

Lemma slice_month m d y : GoString.slice (Date.text m d y) 0 2 = Some (Date.two_digits m).
  Proof. reflexivity. Qed.

Lemma slice_year m d y : GoString.slice (Date.text m d y) 6 10 = Some (Date.four_digits y).
  Proof. reflexivity. Qed.

Lemma text_bytes m d y :
    Date.text m d y =
    String (GoString.digit_char (m / 10)) (String (GoString.digit_char (m mod 10))
      (String "-" (String (GoString.digit_char (d / 10)) (String (GoString.digit_char (d mod 10))
        (String "-" (Date.four_digits y)))))).
  Proof. reflexivity. Qed.

Lemma text_well_formed m d y :
    0 <= m < 100 -> 0 <= d < 100 -> 0 <= y < 10000 ->
    Date.well_formed (Date.text m d y) = true.
  Proof.
    intros Hm Hd Hy.
    assert (forall n k, 0 < k -> 0 <= n < 10 * k -> 0 <= n / k < 10) as Hdiv.
    { intros n k Hk Hn. split; [apply Z.div_pos | apply Z.div_lt_upper_bound]; lia. }
    assert (forall n, 0 <= n mod 10 < 10) as Hmod by (intros; apply Z.mod_pos_bound; lia).
    assert (0 <= y mod 100 < 100) by (apply Z.mod_pos_bound; lia).
    rewrite text_bytes. unfold Date.four_digits, Date.two_digits.
    cbn [Date.well_formed forallb].
    rewrite !is_digit_digit_char; auto; apply Hdiv; lia.
  Qed.

  (** The months between two dates as the code computes them. *)
Lemma monthDiff_text mA dA yA mB dB yB w :
    0 <= mA < 100 -> 0 <= yA < 10000 -> 0 <= mB < 100 -> 0 <= yB < 10000 ->
    monthDiff (Date.text mA dA yA) (Date.text mB dB yB) w
    = Next ((yB - yA) * 12 + (mB - mA)) w.
  Proof.
    intros HmA HyA HmB HyB. unfold monthDiff, substr, mbind, M_bind, mret, M_ret.
    rewrite !slice_month, !slice_year.
    rewrite !ParseInt_two_digits, !ParseInt_four_digits by assumption.
    cbn [fst]. unfold sub64, add64, mul64.
    rewrite (wrap64_small (yB - yA)) by lia.
    rewrite (wrap64_small ((yB - yA) * 12)) by lia.
    rewrite (wrap64_small ((yB - yA) * 12 + mB)) by lia.
    rewrite wrap64_small by lia.
    f_equal. lia.
  Qed.

Lemma digit_val_range c : GoString.is_digit c = true -> 0 <= GoString.digit_val c < 10.
  Proof.
    unfold GoString.is_digit, GoString.digit_val. intros Hc.
    apply andb_true_iff in Hc as [H1 H2].
    apply Nat.leb_le in H1, H2. lia.
  Qed.

Lemma digit_char_digit_val c :
    GoString.is_digit c = true -> GoString.digit_char (GoString.digit_val c) = c.
  Proof.
    intros Hc. pose proof (digit_val_range c Hc) as Hr.
    unfold GoString.is_digit in Hc. apply andb_true_iff in Hc as [H1 H2].
    apply Nat.leb_le in H1, H2.
    unfold GoString.digit_char, GoString.digit_val.
    replace (Z.to_nat (48 + (Z.of_nat (nat_of_ascii c) - 48))) with (nat_of_ascii c) by lia.
    apply ascii_nat_embedding.
  Qed.

Lemma pair_div_mod a b :
    0 <= b < 10 -> (10 * a + b) / 10 = a /\ (10 * a + b) mod 10 = b.
  Proof.
    intros Hb. split.
    - symmetry. apply Z.div_unique with (r := b); lia.
    - symmetry. apply Z.mod_unique with (q := a); lia.
  Qed.

Lemma two_digits_bytes c1 c2 :
    GoString.is_digit c1 = true -> GoString.is_digit c2 = true ->
    Date.two_digits (Date.number [c1; c2]) = String c1 (String c2 EmptyString)
    /\ 0 <= Date.number [c1; c2] < 100.
  Proof.
    intros H1 H2.
    pose proof (digit_val_range c1 H1). pose proof (digit_val_range c2 H2).
    unfold Date.two_digits, Date.number. cbn [fold_left].
    destruct (pair_div_mod (10 * 0 + GoString.digit_val c1) (GoString.digit_val c2)) as [-> ->];
      [assumption |].
    replace (10 * 0 + GoString.digit_val c1) with (GoString.digit_val c1) by lia.
    rewrite !digit_char_digit_val by assumption. split; [reflexivity | lia].
  Qed.

Lemma four_digits_bytes c1 c2 c3 c4 :
    GoString.is_digit c1 = true -> GoString.is_digit c2 = true ->
    GoString.is_digit c3 = true -> GoString.is_digit c4 = true ->
    Date.four_digits (Date.number [c1; c2; c3; c4])
    = String c1 (String c2 (String c3 (String c4 EmptyString)))
    /\ 0 <= Date.number [c1; c2; c3; c4] < 10000.
  Proof.
    intros H1 H2 H3 H4.
    pose proof (digit_val_range c1 H1) as R1. pose proof (digit_val_range c2 H2) as R2.
    pose proof (digit_val_range c3 H3) as R3. pose proof (digit_val_range c4 H4) as R4.
    unfold Date.four_digits, Date.two_digits, Date.number. cbn [fold_left].
    set (a := GoString.digit_val c1) in *. set (b := GoString.digit_val c2) in *.
    set (c := GoString.digit_val c3) in *. set (d := GoString.digit_val c4) in *.
    set (n := 10 * (10 * (10 * (10 * 0 + a) + b) + c) + d).
    assert (E1 : n / 1000 = a) by (symmetry; apply Z.div_unique with (r := 100 * b + 10 * c + d); lia).
    assert (E2 : n / 100 = 10 * a + b) by (symmetry; apply Z.div_unique with (r := 10 * c + d); lia).
    assert (E3 : n mod 100 = 10 * c + d) by (symmetry; apply Z.mod_unique with (q := 10 * a + b); lia).
    rewrite E1, E2, E3.
    destruct (pair_div_mod a b R2) as [_ ->]. destruct (pair_div_mod c d R4) as [-> ->].
    subst a b c d. rewrite !digit_char_digit_val by assumption. split; [reflexivity | lia].
  Qed.

  (** A string in the form is the text of its month, day and year. *)
Lemma well_formed_text s :
    Date.well_formed s = true ->
    s = Date.text (Date.month s) (Date.day s) (Date.year s)
    /\ 0 <= Date.month s < 100 /\ 0 <= Date.year s < 10000.
  Proof.
    intros Hs.
    do 10 (destruct s as [| ? s]; [discriminate Hs |]).
    destruct s; [| discriminate Hs].
    cbn [Date.well_formed forallb] in Hs.
    repeat match goal with
           | H : _ && _ = true |- _ => apply andb_true_iff in H as [? ?]
           end.
    repeat match goal with
           | H : Ascii.eqb _ _ = true |- _ => apply Ascii.eqb_eq in H; subst
           end.
    cbn [Date.month Date.day Date.year].
    match goal with
    | |- context [Date.number [?m1; ?m2]] =>
        match goal with
        | |- context [Date.number [?y1; ?y2; ?y3; ?y4]] =>
            match goal with
            | |- context [Date.text _ (Date.number [?d1; ?d2]) _] =>
                destruct (two_digits_bytes m1 m2) as [Em Rm]; [assumption .. |];
                destruct (two_digits_bytes d1 d2) as [Ed Rd]; [assumption .. |];
                destruct (four_digits_bytes y1 y2 y3 y4) as [Ey Ry]; [assumption .. |]
            end
        end
    end.
    split; [| split; assumption].
    unfold Date.text. rewrite Em, Ed, Ey. reflexivity.
  Qed.

  (** Claim C8.  For two dates in the form MM-DD-YYYY, [monthDiff dateA dateB]
    returns the year of [dateB] minus the year of [dateA], times twelve, plus
    the month of [dateB] minus the month of [dateA]; the days play no part,
    and the result is the signed integer, negative when that sum is. *)
Theorem monthDiff_calendar dateA dateB w :
  Date.well_formed dateA = true ->
  Date.well_formed dateB = true ->
  monthDiff dateA dateB w
  = Next ((Date.year dateB - Date.year dateA) * 12 + (Date.month dateB - Date.month dateA)) w.
Proof.
  intros HA HB.
  destruct (well_formed_text dateA HA) as (EA & ? & ?).
  destruct (well_formed_text dateB HB) as (EB & ? & ?).
  rewrite EA at 1. rewrite EB at 1. apply monthDiff_text; assumption.
Qed.

(** The two dates of the specification's examples, and a pair in the
    opposite order. *)
Lemma monthDiff_calendar_examples :
  monthDiff "01-01-2024" "03-01-2024" ∅ = Next 2 ∅
  /\ monthDiff "12-01-2023" "01-01-2024" ∅ = Next 1 ∅
  /\ monthDiff "03-15-2024" "01-31-2024" ∅ = Next (-2) ∅.
Proof.
  refine (conj _ (conj _ _)).
  - exact (monthDiff_calendar "01-01-2024" "03-01-2024" ∅ eq_refl eq_refl).
  - exact (monthDiff_calendar "12-01-2023" "01-01-2024" ∅ eq_refl eq_refl).
  - exact (monthDiff_calendar "03-15-2024" "01-31-2024" ∅ eq_refl eq_refl).
Defined.

End MonthDiff.

(** ** Errors of create_account and create_license *)

Section Creation.
Context {conv : StrconvFloat} {ledger : Ledger}.




End Creation.



(** ** The sample world *)

Lemma sample_world_account :
  Codec.unmarshal_account (sample_world !! "A_B_1") = sample_account_record.
Proof. vm_compute. reflexivity. Qed.

Lemma sample_world_license :
  Codec.unmarshal_license (sample_world !! "P1_E1") = sample_license_record.
Proof. vm_compute. reflexivity. Qed.

(** ** addActivityToAccount *)

(** Claim C7 at work.  Posting 250 to the sample account succeeds, leaves the
    record under the account key as it was and stores the updated record
    under the key that is the text of the amount; posting to a key that holds
    nothing succeeds as well, from an empty record. *)
Theorem addActivityToAccount_sample :
  addActivityToAccount ["A_B_1"; "250"] sample_world
  = Next ok (<["250" := Codec.marshal_account (post sample_account_record 250)]> sample_world)
  /\ Activity (post sample_account_record 250) = "2.5E+02"
  /\ PeriodToDateBalance (post sample_account_record 250) = "1.25E+03"
  /\ Codec.unmarshal_account
       (after (addActivityToAccount ["A_B_1"; "250"]) sample_world !! "A_B_1")
     = sample_account_record
  /\ sample_world !! "nobody" = None
  /\ addActivityToAccount ["nobody"; "250"] sample_world
     = Next ok (<["250" := Codec.marshal_account (post (Codec.unmarshal_account None) 250)]>
                  sample_world).
Proof. vm_compute. repeat split. Qed.

(** ** next_period *)

(** Claim C6 at work.  With its one documented argument next_period panics
    at [args[1]] and writes nothing; given the account key twice it stores
    the rolled record, whose year is read from two bytes only. *)
Theorem next_period_sample :
  next_period ["A_B_1"] sample_world = Panic sample_world
  /\ next_period ["A_B_1"; "A_B_1"] sample_world
     = Next ok (<["A_B_1" := Codec.marshal_account (rolled sample_account_record "Feb-20")]>
                  sample_world).
Proof. vm_compute. repeat split. Qed.

(** ** settle_bill *)

(** Claim C4 at work.  Five months after the last settlement the charge of
    the sample license is 50; settle_bill stores the license with the new
    date and the charged record under the text of the charge, and the record
    under the account key stays as it was. *)
Theorem settle_bill_sample :
  monthDiff "01-01-2024" "06-15-2024" sample_world = Next 5 sample_world
  /\ supportCharge sample_license_record 5 = 50%float
  /\ settle_bill "06-15-2024" ["P1_E1"; "A_B_1"] sample_world
     = Next ok
         (<["P1_E1" := Codec.marshal_license
                         (set_LastSettlementDate sample_license_record "06-15-2024")]>
            (<["5E+01" := Codec.marshal_account (post sample_account_record 50)]>
               sample_world))
  /\ Codec.unmarshal_account
       (after (settle_bill "06-15-2024" ["P1_E1"; "A_B_1"]) sample_world !! "A_B_1")
     = sample_account_record.
Proof. vm_compute. repeat split. Qed.

(** ** How the operations run *)

Section Runs.
Context {conv : StrconvFloat} {ledger : Ledger}.
Import Codec.



(** monthDiff neither reads nor writes the world. *)
Lemma monthDiff_pure dateA dateB w :
  monthDiff dateA dateB w
  = match months_between dateA dateB with
    | Some months => Next months w
    | None => Panic w
    end.
Proof.
  unfold months_between, monthDiff. unfold_m.
  destruct (GoString.slice dateA 0 2); [| reflexivity].
  destruct (GoString.slice dateB 0 2); [| reflexivity].
  destruct (GoString.slice dateA 6 10); [| reflexivity].
  destruct (GoString.slice dateB 6 10); reflexivity.
Qed.






End Runs.



(** ** float64 facts *)

Section Floats.
Import Float64.




End Floats.

(** ** settle_bill a second time *)

Section Settlement.
Context {conv : StrconvFloat} {ledger : Ledger}.
Import Codec Float64.



End Settlement.


(** ** transfer_license of more than the license holds *)

Section Insufficient.
Context {conv : StrconvFloat} {ledger : Ledger}.
Import Codec.

Lemma slice_in_range s a b :
  (a <= b)%nat -> (b <= String.length s)%nat ->
  GoString.slice s a b = Some (String.substring a (b - a) s).
Proof.
  intros Hab Hb. unfold GoString.slice.
  destruct (Nat.leb_spec a b); [| lia].
  destruct (Nat.leb_spec b (String.length s)); [reflexivity | lia].
Qed.

(** Dates of ten bytes or more have a month difference. *)
Lemma months_between_defined dateA dateB :
  (10 <= String.length dateA)%nat -> (10 <= String.length dateB)%nat ->
  exists months, months_between dateA dateB = Some months.
Proof.
  intros HA HB. unfold months_between, monthDiff. unfold_m.
  rewrite !slice_in_range by lia. eexists. reflexivity.
Qed.



End Insufficient.


(** ** Keys and plain text *)

Section Keys.
Import GoString Json.

Lemma count_app c a b : count c (a ++ b) = (count c a + count c b)%nat.
Proof.
  induction a as [| d a IH]; [reflexivity |].
  change (String d a ++ b) with (String d (a ++ b)). cbn [count]. rewrite IH. lia.
Qed.


Lemma plain_app a b : plain (a ++ b) = plain a && plain b.
Proof.
  induction a as [| d a IH]; [reflexivity |].
  change (String d a ++ b) with (String d (a ++ b)). cbn [plain].
  rewrite IH, andb_assoc. reflexivity.
Qed.

End Keys.

(** ** The balance of the records of an account *)

Section BalanceKept.
Context {conv : StrconvFloat} {ledger : Ledger}.
Import Codec Json Float64.




End BalanceKept.



(** ** What next_period persists, and where *)

Section Rollover.
Context {conv : StrconvFloat} {ledger : Ledger}.
Import Codec.

(** With one argument next_period never succeeds and never writes. *)
Lemma next_period_one_argument key w :
  next_period [key] w = Panic w
  \/ exists msg, next_period [key] w = Next (Error msg) w.
Proof.
  unfold next_period. unfold_m. cbn [length Nat.ltb Nat.leb]. red_m.
  repeat step; eauto.
Qed.

(** A next_period that succeeds has stored the rolled record under its
    second argument. *)
Lemma next_period_run key target rest w w' :
  next_period (key :: target :: rest) w = Next ok w' ->
  exists newPeriod,
    w' = <[target := marshal_account (rolled (unmarshal_account (w !! key)) newPeriod)]> w.
Proof.
  unfold next_period. unfold_m. cbn [length Nat.ltb Nat.leb]. red_m.
  repeat step.
  all: intros Heq; try discriminate Heq; injection Heq as <-.
  all: eexists; reflexivity.
Qed.

End Rollover.

(** ** transfer_license of all that the license holds *)

Section WholeTransfer.
Context {conv : StrconvFloat} {ledger : Ledger}.
Import Codec Json.

Lemma remove_first_not_in key l : key ∉ l -> remove_first key l = l.
Proof.
  induction l as [| x l IH]; [reflexivity |].
  intros Hk. apply not_elem_of_cons in Hk as [Hx Hl]. cbn [remove_first].
  destruct (String.eqb_spec x key); [congruence |]. rewrite IH by assumption. reflexivity.
Qed.










End WholeTransfer.

Section WholeTransferClaim.
Context {conv : StrconvFloat} {ledger : Ledger}.
Import Codec Json.




End WholeTransferClaim.


(** ** The indexes under puts and deletes *)

Section IndexFacts.
Context {conv : StrconvFloat} {ledger : Ledger}.
Import Codec Json.

Lemma index_key_inj e e' : index_key e = index_key e' -> e = e'.
Proof. destruct e, e'; intros Heq; try reflexivity; discriminate Heq. Qed.

Lemma index_key_in_keys e : index_key e ∈ index_keys.
Proof. destruct e; unfold index_keys; set_solver. Qed.

Lemma not_index_key e key : key ∉ index_keys -> key <> index_key e.
Proof. intros Hk ->. apply Hk, index_key_in_keys. Qed.




Lemma holds_key_field e w key :
  holds e w key = String.eqb (key_field e (w !! key)) key.
Proof. destruct e; reflexivity. Qed.



Lemma live_delete_ne e key w key' :
  key <> key' -> live e (delete key w) key' <-> live e w key'.
Proof.
  intros Hk. unfold live. rewrite !holds_key_field, lookup_delete_ne by assumption. reflexivity.
Qed.

Lemma not_live_delete e key w : ~ live e (delete key w) key.
Proof.
  unfold live. rewrite holds_key_field, lookup_delete_eq, String.eqb_eq.
  intros [Hne Heq]. apply Hne. rewrite <- Heq. destruct e; reflexivity.
Qed.



Lemma entity_like_not_empty key : entity_like key -> key <> "".
Proof. intros Hk ->. unfold entity_like in Hk. cbn in Hk. lia. Qed.






End IndexFacts.

(** ** Writes that keep the indexes consistent *)

Section Kept.
Context {conv : StrconvFloat} {ledger : Ledger}.
Import Codec Json.







End Kept.

Section KeptCreateDelete.
Context {conv : StrconvFloat} {ledger : Ledger}.
Import Codec Json.







End KeptCreateDelete.

Section KeptDelete.
Context {conv : StrconvFloat} {ledger : Ledger}.
Import Codec Json.








End KeptDelete.

(** ** The operations keep the indexes consistent *)

Section KeptOperations.
Context {conv : StrconvFloat} {ledger : Ledger}.
Import Codec Json.
Hypothesis format_clean : clean_format.













End KeptOperations.

Section KeptCreation.
Context {conv : StrconvFloat} {ledger : Ledger}.
Import Codec Json.
Hypothesis format_clean : clean_format.
Hypothesis ledger_obeys : obedient.

Lemma get_obeys key : get_fails key = false.
Proof. apply ledger_obeys. Qed.

Lemma del_obeys key : del_fails key = false.
Proof. apply ledger_obeys. Qed.

Lemma put_obeys key : key <> "" -> put_fails key = None.
Proof. apply ledger_obeys. Qed.

Lemma put_index_obeys :
  put_fails AccountIndexStr = None /\ put_fails LicenseIndexStr = None.
Proof. split; apply put_obeys; discriminate. Qed.

(** create_account either leaves the world as it was or creates. *)
Lemma create_account_effect args w r w' :
  create_account args w = Next r w' ->
  w' = w \/ (holds account w (entity_key account args) = false /\ w' = created account args w).
Proof.
  unfold create_account, created, holds, amount. unfold_m.
  destruct (negb (length args =? 10)%nat) eqn:Hlen; [intros [= _ <-]; auto |].
  apply negb_false_iff, Nat.eqb_eq in Hlen. name_args args Hlen.
  cbn [entity_key entity_text account_text index_key nth]. red_m.
  rewrite (proj1 put_index_obeys), !get_obeys.
  unfold amount. repeat step.
  all: intros Heq; try discriminate Heq; injection Heq as _ <-.
  all: try (left; reflexivity).
  right. split; [first [assumption | reflexivity] |].
  unfold account_text, license_text, amount. cbn [entity_key nth].
  repeat match goal with
         | E : ParseFloat _ = _ |- _ => rewrite E; clear E
         end.
  reflexivity.
Qed.

Lemma create_license_effect args w r w' :
  create_license args w = Next r w' ->
  w' = w \/ (holds license w (entity_key license args) = false /\ w' = created license args w).
Proof.
  unfold create_license, created, holds, amount. unfold_m.
  destruct (negb (length args =? 11)%nat) eqn:Hlen; [intros [= _ <-]; auto |].
  apply negb_false_iff, Nat.eqb_eq in Hlen. name_args args Hlen.
  cbn [entity_key entity_text license_text index_key nth]. red_m.
  rewrite (proj2 put_index_obeys), !get_obeys.
  unfold amount. repeat step.
  all: intros Heq; try discriminate Heq; injection Heq as _ <-.
  all: try (left; reflexivity).
  right. split; [first [assumption | reflexivity] |].
  unfold account_text, license_text, amount. cbn [entity_key nth].
  repeat match goal with
         | E : ParseFloat _ = _ |- _ => rewrite E; clear E
         end.
  reflexivity.
Qed.

Lemma create_effect e args w r w' :
  create e args w = Next r w' ->
  w' = w \/ (holds e w (entity_key e args) = false /\ w' = created e args w).
Proof. destruct e; [apply create_account_effect | apply create_license_effect]. Qed.

End KeptCreation.

Section KeptCreated.
Context {conv : StrconvFloat} {ledger : Ledger}.
Import Codec Json.
Hypothesis format_clean : clean_format.

Lemma nth_plain args i : forallb plain args = true -> plain (nth i args "") = true.
Proof.
  revert i. induction args as [| a args IH]; intros i Hp; [destruct i; reflexivity |].
  cbn [forallb] in Hp. apply andb_true_iff in Hp as [Ha Hargs].
  destruct i; [exact Ha | apply IH, Hargs].
Qed.

Lemma entity_key_plain e args : forallb plain args = true -> plain (entity_key e args) = true.
Proof.
  intros Hp. destruct e; cbn [entity_key]; rewrite !plain_app, !nth_plain by assumption;
    reflexivity.
Qed.

Lemma entity_key_like e args : entity_like (entity_key e args).
Proof.
  unfold entity_like. destruct e; cbn [entity_key]; rewrite !count_app;
    cbn [GoString.count Ascii.eqb Bool.eqb]; lia.
Qed.

(** With plain arguments the text that is put is the object it spells. *)
Lemma entity_text_object e args :
  forallb plain args = true ->
  exists ms,
    entity_text e args = DObj ms
    /\ Forall (fun kv => plain (snd kv) = true) ms
    /\ key_field e (Some (DObj ms)) = entity_key e args
    /\ key_field (other e) (Some (DObj ms)) = ""
    /\ (dated (unmarshal_license (Some (DObj ms))) -> e = license).
Proof.
  intros Hp. pose proof (entity_key_plain e args Hp) as Hk.
  destruct e; cbn [entity_text]; unfold account_text, license_text, object_of_text;
    cbn [forallb snd]; rewrite Hk, !nth_plain by assumption;
    rewrite !(proj2 (format_clean _)); cbn [andb]; eexists; split; try reflexivity.
  - split; [| split; [reflexivity | split; [reflexivity |]]].
    + repeat (constructor; [first [assumption | apply nth_plain, Hp | apply format_clean] |]).
      constructor.
    + intros [Hd | Hd]; destruct Hd; reflexivity.
  - split; [| split; [reflexivity | split; [reflexivity | reflexivity]]].
    repeat (constructor; [first [assumption | apply nth_plain, Hp | apply format_clean] |]).
    constructor.
Qed.


End KeptCreated.

Section KeptInit.
Context {conv : StrconvFloat} {ledger : Ledger}.
Import Codec Json.



End KeptInit.

Section KeptDeletion.
Context {conv : StrconvFloat} {ledger : Ledger}.
Import Codec Json.
Hypothesis ledger_obeys : obedient.



End KeptDeletion.

Section KeptTransfer.
Context {conv : StrconvFloat} {ledger : Ledger}.
Import Codec Json.
Hypothesis format_clean : clean_format.
Hypothesis ledger_obeys : obedient.









End KeptTransfer.

(** ** The texts of the reference FormatFloat *)

Section ReferenceFormat.
Import GoString Json RefStrconv.

Lemma amount_text_app a b : amount_text (a ++ b) = amount_text a && amount_text b.
Proof.
  induction a as [| c a IH]; [reflexivity |].
  change (String c a ++ b) with (String c (a ++ b)). cbn [amount_text].
  rewrite IH. apply andb_assoc.
Qed.

Lemma amount_text_plain s : amount_text s = true -> plain s = true.
Proof.
  induction s as [| c s IH]; [reflexivity |]. cbn [amount_text plain]. unfold amount_char.
  intros H. apply andb_true_iff in H as [Hc Hs]. apply andb_true_iff in Hc as [Hc _].
  rewrite Hc, (IH Hs). reflexivity.
Qed.

Lemma amount_text_count s : amount_text s = true -> count "_" s = 0%nat.
Proof.
  induction s as [| c s IH]; [reflexivity |]. cbn [amount_text count]. unfold amount_char.
  intros H. apply andb_true_iff in H as [Hc Hs]. apply andb_true_iff in Hc as [_ Hc].
  apply negb_true_iff in Hc. rewrite Hc, (IH Hs). reflexivity.
Qed.

Lemma digit_char_amount d : 0 <= d < 10 -> amount_char (digit_char d) = true.
Proof.
  intros Hd.
  assert (d = 0 \/ d = 1 \/ d = 2 \/ d = 3 \/ d = 4 \/ d = 5 \/ d = 6 \/ d = 7 \/ d = 8 \/ d = 9)
    as Hcases by lia.
  repeat (destruct Hcases as [-> | Hcases]; [reflexivity |]). subst d. reflexivity.
Qed.

Lemma digits_of_amount fuel n acc :
  amount_text acc = true -> amount_text (digits_of fuel n acc) = true.
Proof.
  revert n acc. induction fuel as [| fuel IH]; intros n acc Hacc; [exact Hacc |].
  cbn [digits_of].
  assert (amount_text (String (digit_char (n mod 10)) acc) = true) as Hnext.
  { cbn [amount_text]. rewrite digit_char_amount, Hacc; [reflexivity |].
    apply Z.mod_pos_bound. lia. }
  destruct (n / 10 =? 0); [exact Hnext | apply IH, Hnext].
Qed.

Lemma decimal_amount n : amount_text (decimal n) = true.
Proof. apply digits_of_amount. reflexivity. Qed.

Lemma exponent_text_amount e : amount_text (exponent_text e) = true.
Proof.
  unfold exponent_text. cbn [amount_text].
  assert (amount_char (if e <? 0 then "-"%char else "+"%char) = true) as ->
      by (destruct (e <? 0); reflexivity).
  destruct (String.length (decimal (Z.abs e)) <? 2)%nat; cbn [amount_text andb];
    rewrite decimal_amount; reflexivity.
Qed.

Lemma scientific_amount c k :
  scientific c k <> "" /\ amount_text (scientific c k) = true.
Proof.
  unfold scientific. pose proof (decimal_amount c) as Hds.
  destruct (decimal c) as [| d1 [| d2 r]].
  - split; [discriminate | reflexivity].
  - split; [discriminate |]. cbn [amount_text] in *.
    apply andb_true_iff in Hds as [-> _]. rewrite amount_text_app, exponent_text_amount.
    reflexivity.
  - split; [discriminate |]. cbn [amount_text] in Hds |- *.
    apply andb_true_iff in Hds as [-> Hr].
    rewrite !amount_text_app, exponent_text_amount. cbn [amount_text] in Hr |- *.
    rewrite Hr. reflexivity.
Qed.

Lemma ref_FormatFloat_amount x :
  ref_FormatFloat x <> "" /\ amount_text (ref_FormatFloat x) = true.
Proof.
  unfold ref_FormatFloat.
  destruct (Prim2SF x) as [s | s | | s m e]; try (destruct s; cbv iota; (split; [discriminate | reflexivity])).
  - split; [discriminate | reflexivity].
  - destruct (if 0 <=? e then _ else _) as [n d].
    destruct (shortest _ _ _ _ _ _) as [c k]. destruct (strip_zeros _ _ _) as [c' k'].
    destruct (scientific_amount c' k') as [Hne Ham].
    destruct s.
    + split; [discriminate |]. rewrite amount_text_app, Ham. reflexivity.
    + split; assumption.
Qed.

Lemma reference_clean : @clean_format RefStrconv.reference.
Proof.
  intros x. cbn [FormatFloat RefStrconv.reference].
  destruct (ref_FormatFloat_amount x) as [Hne Ham]. unfold amount_like.
  split; [split; [exact Hne | apply amount_text_count, Ham] | apply amount_text_plain, Ham].
Qed.

Lemma sound_ledger_obedient : @obedient sound_ledger.
Proof.
  unfold obedient. cbn [get_fails put_fails del_fails sound_ledger].
  split; [reflexivity |]. split; [reflexivity |].
  intros key Hkey. apply String.eqb_neq in Hkey. rewrite Hkey. reflexivity.
Qed.

End ReferenceFormat.

(** ** The indexes along the invocations *)

Section KeptInvocations.
Context {conv : StrconvFloat} {ledger : Ledger}.
Import Codec Json.
Hypothesis format_clean : clean_format.
Hypothesis ledger_obeys : obedient.






End KeptInvocations.



(** ** Init, read and the dispatch of Invoke *)

Section Entry.
Context {conv : StrconvFloat} {ledger : Ledger}.
Import Codec Json Strconv.
Hypothesis ledger_obeys : obedient.

(** Property X1.  Init with one argument that is an integer, on a ledger that
    obeys, answers with success, stores the decimal text of the integer under
    test_key and [null] under both index keys, so that both indexes are
    empty, and changes no other key: the records of the entities created
    before an "init" stay stored, though no index lists them any more. *)
Theorem Init_resets a w :
  snd (Atoi a) = None ->
  exists w',
    Init [a] w = Next ok w'
    /\ w' !! "test_key" = Some (DRaw (FormatInt (fst (Atoi a))))
    /\ (forall e, w' !! index_key e = Some DNull /\ index_of e w' = [])
    /\ forall key,
         key <> "test_key" -> key <> LicenseIndexStr -> key <> AccountIndexStr ->
         w' !! key = w !! key.
Proof.
  intros Hint. unfold Init. unfold_m. cbn [length Nat.eqb negb]. red_m.
  destruct (Atoi a) as [Aval err]. cbn [snd fst] in *. subst err.
  rewrite bool_decide_eq_false_2 by (intros [x Hx]; discriminate Hx).
  rewrite (put_obeys ledger_obeys "test_key") by discriminate. red_m.
  rewrite (proj2 (put_index_obeys ledger_obeys)). red_m.
  rewrite (proj1 (put_index_obeys ledger_obeys)). red_m.
  eexists. split; [reflexivity |]. split; [| split].
  - rewrite !lookup_insert_ne by discriminate. apply lookup_insert_eq.
  - intros [|]; unfold index_of; cbn [index_key].
    + rewrite lookup_insert_eq. split; reflexivity.
    + rewrite lookup_insert_ne by discriminate. rewrite lookup_insert_eq. split; reflexivity.
  - intros key H1 H2 H3. rewrite !lookup_insert_ne by congruence. reflexivity.
Qed.

End Entry.

Section Entry2.
Context {conv : StrconvFloat} {ledger : Ledger}.
Import Codec Json Strconv.

(** Property X2.  Init with another number of arguments than one, or with
    one argument that strconv.Atoi does not read as an integer, answers with
    an error and leaves the world state as it was. *)
Theorem Init_refuses args w :
  (length args <> 1%nat \/ exists a, args = [a] /\ snd (Atoi a) <> None) ->
  exists msg, Init args w = Next (Error msg) w.
Proof.
  intros [Hlen | (a & -> & Hint)]; unfold Init; unfold_m.
  - apply Nat.eqb_neq in Hlen. rewrite Hlen. cbn [negb]. eauto.
  - cbn [length Nat.eqb negb]. red_m. destruct (Atoi a) as [Aval [err |]]; cbn [snd] in Hint.
    + rewrite bool_decide_eq_true_2 by eauto. eauto.
    + congruence.
Qed.

Lemma read_run key w :
  read [key] w
  = if get_fails key
    then Next (Error ("{" ++ quote ++ "Error" ++ quote ++ ":" ++ quote
                      ++ "Failed to get state for " ++ key ++ quote ++ "}")) w
    else Next (Success (w !! key)) w.
Proof. unfold read. unfold_m. cbn [length Nat.eqb negb]. red_m. destruct (get_fails key); reflexivity. Qed.

(** Property X3.  Invoke knows eight function names.  With any other name,
    that of addActivityToAccount among them, it answers with the error
    "Received unknown invoke function name" and writes nothing. *)
Theorem Invoke_unknown today function args w :
  function ∉ ["init"; "read"; "create_account"; "create_license"; "transfer_license";
              "delete_license"; "settle_bill"; "next_period"] ->
  Invoke today function args w
  = Next (Error ("Received unknown invoke function name - '" ++ function ++ "'")) w.
Proof.
  intros Hname. unfold Invoke.
  repeat match goal with
         | |- context [String.eqb function ?n] =>
             destruct (String.eqb_spec function n) as [-> | _];
             [exfalso; apply Hname; set_solver |]
         end.
  reflexivity.
Qed.

End Entry2.

(** ** monthDiff: bounds and sums *)

Section MonthDiffMore.
Context {conv : StrconvFloat} {ledger : Ledger}.
Import Codec Json Strconv.

Lemma slice_out_of_range s a b :
  (String.length s < b)%nat -> GoString.slice s a b = None.
Proof.
  intros Hb. unfold GoString.slice.
  destruct (Nat.leb_spec b (String.length s)); [lia |]. rewrite andb_false_r. reflexivity.
Qed.

Lemma months_between_short dateA dateB :
  (String.length dateA < 10)%nat \/ (String.length dateB < 10)%nat ->
  months_between dateA dateB = None.
Proof.
  intros Hshort. unfold months_between, monthDiff. unfold_m.
  destruct (GoString.slice dateA 0 2) eqn:HA2; [| reflexivity].
  destruct (GoString.slice dateB 0 2) eqn:HB2; [| reflexivity].
  destruct (Nat.lt_ge_cases (String.length dateA) 10) as [HA | HA].
  - rewrite (slice_out_of_range dateA 6 10 HA). reflexivity.
  - rewrite (slice_in_range dateA 6 10) by lia.
    destruct Hshort as [Hs | Hs]; [lia |].
    rewrite (slice_out_of_range dateB 6 10 Hs). reflexivity.
Qed.

(** Property X4.  monthDiff neither reads nor writes the world state.  It
    returns a number when both dates have ten bytes or more and panics, on a
    slice out of range, when one of them is shorter; the bytes themselves are
    not checked. *)
Theorem monthDiff_bounds dateA dateB w :
  (exists months, monthDiff dateA dateB w = Next months w)
  /\ (10 <= String.length dateA)%nat /\ (10 <= String.length dateB)%nat
  \/ monthDiff dateA dateB w = Panic w
     /\ ((String.length dateA < 10)%nat \/ (String.length dateB < 10)%nat).
Proof.
  rewrite monthDiff_pure.
  destruct (Nat.lt_ge_cases (String.length dateA) 10) as [HA | HA].
  - right. rewrite months_between_short by auto. auto.
  - destruct (Nat.lt_ge_cases (String.length dateB) 10) as [HB | HB].
    + right. rewrite months_between_short by auto. auto.
    + left. destruct (months_between_defined dateA dateB HA HB) as [months ->]. eauto.
Qed.

(** Property X5.  For three dates in the form MM-DD-YYYY the months that
    monthDiff counts from the first to the third are those from the first to
    the second plus those from the second to the third, and the months back
    from the second to the first are the months forth, negated. *)
Theorem monthDiff_adds dateA dateB dateC w :
  Date.well_formed dateA = true ->
  Date.well_formed dateB = true ->
  Date.well_formed dateC = true ->
  exists ab bc,
    monthDiff dateA dateB w = Next ab w
    /\ monthDiff dateB dateC w = Next bc w
    /\ monthDiff dateA dateC w = Next (ab + bc) w
    /\ monthDiff dateB dateA w = Next (- ab) w.
Proof.
  intros HA HB HC.
  destruct (well_formed_text dateA HA) as (EA & ? & ?).
  destruct (well_formed_text dateB HB) as (EB & ? & ?).
  destruct (well_formed_text dateC HC) as (EC & ? & ?).
  rewrite EA, EB, EC. rewrite !monthDiff_text by assumption.
  eexists _, _. repeat split. all: f_equal; lia.
Qed.

End MonthDiffMore.

Lemma monthDiff_adds_witness :
  exists ab bc,
    monthDiff "11-30-2023" "02-01-2024" ∅ = Next ab ∅
    /\ monthDiff "02-01-2024" "07-15-2025" ∅ = Next bc ∅
    /\ monthDiff "11-30-2023" "07-15-2025" ∅ = Next (ab + bc) ∅
    /\ monthDiff "02-01-2024" "11-30-2023" ∅ = Next (- ab) ∅.
Proof.
  exact (monthDiff_adds "11-30-2023" "02-01-2024" "07-15-2025" ∅ eq_refl eq_refl eq_refl).
Defined.

(** ** Keys that hold no record, and arguments that are refused *)

Section Absent.
Context {conv : StrconvFloat} {ledger : Ledger}.
Import Codec Json Strconv.

(** Property X6.  Under a key that holds no record, which the ledger
    reads without an error, settle_bill, next_period and transfer_license do
    not answer with an error: they panic, on the slice of the empty
    settlement date, period or start date, and the world state is as it
    was. *)
Theorem absent_record_panics today key a1 a2 a3 a4 a5 a6 rest w :
  w !! key = None ->
  get_fails key = false ->
  settle_bill today (key :: a1 :: rest) w = Panic w
  /\ next_period (key :: rest) w = Panic w
  /\ transfer_license today [key; a1; a2; a3; a4; a5; a6] w = Panic w.
Proof.
  intros Habsent Hget. split; [| split].
  - unfold settle_bill. unfold call at 1.
    unfold at_index, GetState, return_if, return_, mbind, M_bind, mret, M_ret.
    cbn [length Nat.ltb Nat.leb]. red_m. rewrite Hget, Habsent. red_m.
    rewrite monthDiff_pure. reflexivity.
  - unfold next_period. unfold_m. cbn [length Nat.ltb Nat.leb]. red_m.
    rewrite Hget, Habsent. reflexivity.
  - unfold transfer_license. unfold call at 1.
    unfold at_index, GetState, return_if, return_, mbind, M_bind, mret, M_ret.
    cbn [length Nat.eqb negb]. red_m. rewrite Hget, Habsent. red_m.
    rewrite monthDiff_pure. reflexivity.
Qed.

(** Property X7.  With a wrong number of arguments read and
    delete_license (other than one), addActivityToAccount and settle_bill
    (fewer than two), next_period (none) and transfer_license (other than
    seven) answer with an error and leave the world state as it was. *)
Theorem wrong_argument_count today args w :
  (length args <> 1%nat ->
   (exists msg, read args w = Next (Error msg) w)
   /\ exists msg, delete_license args w = Next (Error msg) w)
  /\ ((length args < 2)%nat ->
      (exists msg, addActivityToAccount args w = Next (Error msg) w)
      /\ exists msg, settle_bill today args w = Next (Error msg) w)
  /\ (length args = 0%nat -> exists msg, next_period args w = Next (Error msg) w)
  /\ (length args <> 7%nat -> exists msg, transfer_license today args w = Next (Error msg) w).
Proof.
  split; [| split; [| split]].
  - intros Hlen. apply Nat.eqb_neq in Hlen.
    unfold read, delete_license. unfold_m. rewrite Hlen. cbn [negb]. eauto.
  - intros Hlen. apply Nat.ltb_lt in Hlen.
    unfold addActivityToAccount, settle_bill. unfold_m. rewrite Hlen. eauto.
  - intros Hlen. destruct args; [| discriminate Hlen].
    unfold next_period. unfold_m. cbn [length Nat.ltb Nat.leb]. eauto.
  - intros Hlen. apply Nat.eqb_neq in Hlen.
    unfold transfer_license. unfold call at 1.
    unfold return_if, return_, mbind, M_bind. rewrite Hlen. cbn [negb]. eauto.
Qed.

(** Property X8.  A transfer_license whose quantity argument
    strconv.ParseFloat does not read, for a license whose start date has ten
    bytes or more, answers with the error "3rd argument must be a numeric
    string" and leaves the world state as it was: the test comes after the
    month difference and before every put. *)
Theorem transfer_license_not_numeric today a0 a1 a2 a3 a4 a5 a6 w :
  get_fails a0 = false ->
  (10 <= String.length (LicenseStartDate (unmarshal_license (w !! a0))))%nat ->
  (10 <= String.length today)%nat ->
  not_numeric a2 = true ->
  transfer_license today [a0; a1; a2; a3; a4; a5; a6] w
  = Next (Error "3rd argument must be a numeric string") w.
Proof.
  intros Hget Hstart Htoday Hnum. unfold transfer_license, not_numeric in *.
  unfold call at 1. unfold at_index, GetState, return_if, return_, mbind, M_bind, mret, M_ret.
  cbn [length Nat.eqb negb]. red_m. rewrite Hget. red_m.
  rewrite monthDiff_pure.
  destruct (months_between_defined _ _ Hstart Htoday) as [months ->]. red_m.
  destruct (ParseFloat a2) as [tq err]. cbn [snd] in Hnum. red_m. rewrite Hnum.
  reflexivity.
Qed.

End Absent.

Lemma absent_record_panics_witness :
  settle_bill "06-15-2024" ["P9_E9"; "A_B_1"] sample_world = Panic sample_world
  /\ next_period ["A_B_9"; "A_B_9"] sample_world = Panic sample_world
  /\ transfer_license "06-15-2024" ["P9_E9"; "E2"; "1"; "A_B_1"; "A_B_1"; "A_B_1"; "A_B_1"]
       sample_world = Panic sample_world.
Proof.
  split; [| split].
  - exact (proj1 (absent_record_panics "06-15-2024" "P9_E9" "A_B_1" "" "" "" "" "" []
                    sample_world eq_refl eq_refl)).
  - exact (proj1 (proj2 (absent_record_panics "" "A_B_9" "" "" "" "" "" "" ["A_B_9"]
                           sample_world eq_refl eq_refl))).
  - exact (proj2 (proj2 (absent_record_panics "06-15-2024" "P9_E9" "E2" "1" "A_B_1" "A_B_1"
                           "A_B_1" "A_B_1" [] sample_world eq_refl eq_refl))).
Defined.

Lemma transfer_license_not_numeric_witness :
  transfer_license "06-15-2024" ["P1_E1"; "E2"; "ten"; "A_B_1"; "A_B_1"; "A_B_1"; "A_B_1"]
    sample_world
  = Next (Error "3rd argument must be a numeric string") sample_world.
Proof.
  apply transfer_license_not_numeric.
  - reflexivity.
  - vm_compute. lia.
  - vm_compute. lia.
  - vm_compute. reflexivity.
Defined.

(** ** Creation, read back *)

Section Created.
Context {conv : StrconvFloat} {ledger : Ledger}.
Import Codec Json Strconv.
Hypothesis format_clean : clean_format.
Hypothesis ledger_obeys : obedient.

Ltac split_refusal H :=
  repeat match type of H with
         | _ || _ = false =>
             let H' := fresh "Href" in apply orb_false_iff in H as [H H']
         end.

(** A creation that is not refused succeeds. *)
Lemma create_runs e args w :
  refused e args w = false -> create e args w = Next ok (created e args w).
Proof.
  unfold refused, not_numeric, holds. intros Href.
  destruct e; split_refusal Href; apply negb_false_iff, Nat.eqb_eq in Href.
  all: cbn [create]; unfold create_account, create_license, created; unfold_m.
  all: rewrite Href; cbn [Nat.eqb negb]; name_args args Href.
  all: cbn [nth entity_key index_key entity_text] in *; red_m.
  all: unfold account_text, license_text, amount; cbn [nth entity_key].
  all: rewrite ?(proj1 (put_index_obeys ledger_obeys)), ?(proj2 (put_index_obeys ledger_obeys)).
  all: repeat match goal with
         | H : bool_decide (is_Some (ParseFloat ?a).2) = false |- _ =>
             destruct (ParseFloat a) as [? ?]; cbn [snd fst] in H |- *; red_m;
             rewrite H; clear H; red_m
         end.
  all: repeat match goal with
         | H : get_fails _ = false |- _ => rewrite H; clear H; red_m
         end.
  all: rewrite !(get_obeys ledger_obeys); red_m.
  all: match goal with
       | H : (_ =? _)%string = false |- _ => rewrite H; red_m
       end.
  - rewrite (put_obeys ledger_obeys)
      by (apply entity_like_not_empty,
            (entity_key_like account [s; s0; ""; ""; ""; ""; ""; ""; s7])).
    reflexivity.
  - rewrite (put_obeys ledger_obeys)
      by (apply entity_like_not_empty, (entity_key_like license [s; s0])).
    reflexivity.
Qed.

(** Property X9.  With plain arguments that are not refused, and a key
    that is no index key, on a ledger that obeys and with amounts formatted as
    plain text: create_account and create_license answer with success; a read
    of the derived key then returns the record that was spelled, whose key
    field is the key; the key is the last entry of the index of its kind; and
    no other key has changed. *)
Theorem create_then_read e args w :
  forallb plain args = true ->
  refused e args w = false ->
  entity_key e args ∉ index_keys ->
  exists w',
    create e args w = Next ok w'
    /\ read [entity_key e args] w' = Next (Success (Some (entity_text e args))) w'
    /\ key_field e (Some (entity_text e args)) = entity_key e args
    /\ index_of e w' = (index_of e w ++ [entity_key e args])%list
    /\ forall key, key <> entity_key e args -> key <> index_key e -> w' !! key = w !! key.
Proof.
  intros Hp Href Hkey. exists (created e args w).
  pose proof (not_index_key e _ Hkey) as Hne.
  split; [apply create_runs, Href |]. split; [| split; [| split]].
  - rewrite read_run, (get_obeys ledger_obeys). unfold created.
    rewrite lookup_insert_ne by congruence. rewrite lookup_insert_eq. reflexivity.
  - destruct (entity_text_object format_clean e args Hp) as (ms & -> & _ & Hfield & _).
    exact Hfield.
  - unfold created. rewrite lookup_insert_ne by congruence.
    unfold index_of at 1. rewrite lookup_insert_eq. reflexivity.
  - intros key H1 H2. unfold created. rewrite !lookup_insert_ne by congruence. reflexivity.
Qed.

(** A creation that is refused answers with an error and writes nothing. *)
Lemma create_refused e args w :
  refused e args w = true -> exists msg, create e args w = Next (Error msg) w.
Proof.
  unfold refused, not_numeric, holds. intros Href.
  destruct e; cbn [create]; unfold create_account, create_license; unfold_m.
  all: destruct (negb (length args =? _)%nat) eqn:Hlen; [eauto |].
  all: apply negb_false_iff, Nat.eqb_eq in Hlen; name_args args Hlen.
  all: cbn [entity_key nth orb] in Href; red_m.
  all: repeat step; eauto.
  all: exfalso.
  all: repeat match goal with
         | E : ParseFloat _ = _ |- _ => rewrite E in Href; clear E
         end.
  all: cbn [snd] in Href.
  all: repeat match goal with
         | E : _ = false |- _ => rewrite E in Href; clear E
         end.
  all: discriminate Href.
Qed.

(** Property X10.  After such a creation a second create_account or
    create_license whose arguments derive the same key, whatever its other
    arguments, answers with an error and leaves the world state as the first
    creation left it: the index lists the key once. *)
Theorem create_twice e args args' w :
  forallb plain args = true ->
  refused e args w = false ->
  entity_key e args ∉ index_keys ->
  entity_key e args' = entity_key e args ->
  exists w' msg,
    create e args w = Next ok w'
    /\ create e args' w' = Next (Error msg) w'.
Proof.
  intros Hp Href Hkey Hsame.
  assert (Hheld : refused e args' (created e args w) = true).
  { unfold refused. rewrite Hsame, holds_key_field. unfold created.
    rewrite lookup_insert_ne by (apply not_eq_sym, not_index_key, Hkey).
    rewrite lookup_insert_eq.
    destruct (entity_text_object format_clean e args Hp) as (ms & -> & _ & -> & _).
    rewrite String.eqb_refl. apply orb_true_r. }
  destruct (create_refused e args' _ Hheld) as [msg Hrun].
  exists (created e args w), msg. split; [apply create_runs, Href | exact Hrun].
Qed.

End Created.

(** ** delete_license *)

Section Deletion.
Context {conv : StrconvFloat} {ledger : Ledger}.
Import Codec Json Strconv.
Hypothesis ledger_obeys : obedient.

Lemma delete_license_run key w :
  delete_license [key] w
  = Next ok (<[LicenseIndexStr := cut_index key w]> (delete key w)).
Proof.
  unfold delete_license, cut_index. unfold_m. cbn [length Nat.eqb negb]. red_m.
  rewrite (del_obeys ledger_obeys), (get_obeys ledger_obeys),
    (proj2 (put_index_obeys ledger_obeys)).
  reflexivity.
Qed.

(** Property X11.  On a ledger that obeys, delete_license with a
    key that is no index key answers with success whatever the key holds: it
    does not test that the record is a license.  Afterwards the key holds no
    record, the first occurrence of the key is cut from _licenseindex,
    _accountindex is as it was, so that an account deleted in this way stays
    listed, and no other key has changed. *)
Theorem delete_license_any_record key w :
  key ∉ index_keys ->
  exists w',
    delete_license [key] w = Next ok w'
    /\ w' !! key = None
    /\ index_of license w' = remove_first key (index_of license w)
    /\ index_of account w' = index_of account w
    /\ forall k, k <> key -> k <> LicenseIndexStr -> w' !! k = w !! k.
Proof.
  intros Hkey. eexists. split; [apply delete_license_run |].
  pose proof (not_index_key license key Hkey) as Hl.
  pose proof (not_index_key account key Hkey) as Ha. cbn [index_key] in Hl, Ha.
  split; [| split; [| split]].
  - rewrite lookup_insert_ne by congruence. apply lookup_delete_eq.
  - unfold index_of, cut_index. cbn [index_key]. rewrite lookup_insert_eq.
    rewrite lookup_delete_ne by congruence.
    destruct (unmarshal_strings (w !! LicenseIndexStr)); reflexivity.
  - unfold index_of. cbn [index_key]. rewrite lookup_insert_ne by discriminate.
    rewrite lookup_delete_ne by congruence. reflexivity.
  - intros k H1 H2. rewrite lookup_insert_ne by congruence.
    apply lookup_delete_ne. congruence.
Qed.

(** Property X12.  On a ledger that obeys, for a key that
    _licenseindex lists once at most, a second delete_license of the key
    answers with success and changes nothing: deleting twice is deleting
    once. *)
Theorem delete_license_twice key w :
  once key w ->
  exists w',
    delete_license [key] w = Next ok w'
    /\ delete_license [key] w' = Next ok w'.
Proof.
  intros Honce. eexists. split; [apply delete_license_run |].
  rewrite delete_license_run. f_equal.
  destruct (String.eqb_spec key LicenseIndexStr) as [-> | Hne].
  - rewrite delete_insert_eq, delete_delete_eq. unfold cut_index.
    rewrite delete_insert_eq, delete_delete_eq, lookup_delete_eq. reflexivity.
  - rewrite delete_insert_ne by congruence. rewrite delete_delete_eq.
    rewrite insert_insert_eq. f_equal.
    unfold cut_index at 1. rewrite lookup_delete_ne by congruence.
    rewrite lookup_insert_eq. unfold cut_index.
    unfold once, index_of in Honce. cbn [index_key] in Honce.
    rewrite lookup_delete_ne by congruence.
    destruct (unmarshal_strings (w !! LicenseIndexStr)) as [l |]; cbn in *; [| reflexivity].
    rewrite (remove_first_not_in key (remove_first key l) Honce). reflexivity.
Qed.

End Deletion.

(** ** transfer_license of a part of the quantity *)

Section PartialTransfer.
Context {conv : StrconvFloat} {ledger : Ledger}.
Import Codec Json Strconv.
Hypothesis format_clean : clean_format.
Hypothesis ledger_obeys : obedient.












End PartialTransfer.

(** ** next_period with a second argument *)

Section Rolling.
Context {conv : StrconvFloat} {ledger : Ledger}.
Import Codec Json Strconv GoInt.
Hypothesis ledger_obeys : obedient.

(** The month after each month, and the year after December. *)
Lemma scan_months_next i year :
  (i < 12)%nat ->
  scan_months months 0 (nth i months "") year ("", "")
  = (nth (S i mod 12) months "",
     FormatInt (if (i =? 11)%nat then add64 year 1 else year)).
Proof.
  intros Hi.
  do 12 (destruct i as [| i]; [reflexivity |]). lia.
Qed.

(** Property X15.  next_period with a second argument, for an account
    whose period is one of the twelve month names followed by one byte and two
    more: on a ledger that obeys it answers with success and stores under the
    second argument the record with the opening balance set to the period to
    date balance, the activity to the text of zero, and the period to the name
    of the next month, January after December, a dash and the decimal text of
    the number read from those two bytes alone, plus one after December: from
    Jan-2024 it is Feb-20. *)
Theorem next_period_rolls key target rest w i sep y1 y2 tail :
  (i < 12)%nat ->
  Period (unmarshal_account (w !! key))
  = nth i months "" ++ String sep (String y1 (String y2 tail)) ->
  target <> "" ->
  next_period (key :: target :: rest) w
  = Next ok
      (<[target :=
           marshal_account
             (rolled (unmarshal_account (w !! key))
                (nth (S i mod 12) months "" ++ "-"
                 ++ FormatInt (if (i =? 11)%nat
                               then add64 (fst (ParseInt (String y1 (String y2 "")))) 1
                               else fst (ParseInt (String y1 (String y2 ""))))))]> w).
Proof.
  intros Hi Hperiod Htarget.
  unfold next_period. unfold_m. cbn [length Nat.ltb Nat.leb]. red_m.
  rewrite (get_obeys ledger_obeys). red_m. rewrite Hperiod.
  assert (Hmonth : GoString.slice (nth i months "" ++ String sep (String y1 (String y2 tail))) 0 3
                   = Some (nth i months "")).
  { do 12 (destruct i as [| i]; [reflexivity |]). lia. }
  assert (Hyear : GoString.slice (nth i months "" ++ String sep (String y1 (String y2 tail))) 4 6
                  = Some (String y1 (String y2 ""))).
  { do 12 (destruct i as [| i]; [destruct tail; reflexivity |]). lia. }
  rewrite Hmonth, Hyear. red_m. rewrite (scan_months_next i _ Hi). red_m.
  rewrite (put_obeys ledger_obeys target Htarget). reflexivity.
Qed.

End Rolling.

(** * The invoice chaincode: properties *)

Ltac unfold_i :=
  unfold Invoices.call, Invoices.at_index, Invoices.GetState, Invoices.PutState,
    Invoices.return_if, Invoices.return_, Invoices.panic, Invoices.failure,
    mbind, Invoices.M_bind, mret, Invoices.M_ret in *.

Section InvoiceRuns.
Import Invoices.
Context {json : JsonText} {caller : Caller} {ledger : Ledger}.

Lemma decide_none {A : Type} : bool_decide (is_Some (@None A)) = false.
Proof. apply bool_decide_eq_false_2. intros [? ?]. discriminate. Qed.

Lemma decide_some {A : Type} (x : A) : bool_decide (is_Some (Some x)) = true.
Proof. apply bool_decide_eq_true_2. eauto. Qed.

Lemma unmarshal_marshal_invoice inv :
  unmarshal_invoice (Some (marshal_invoice inv)) = (inv, false).
Proof. destruct inv. reflexivity. Qed.

Lemma unmarshal_marshal_holder h :
  unmarshal_holder (Some (marshal_holder h)) = (h, false).
Proof. destruct h as [[l |]]; reflexivity. Qed.

Lemma retrieve_invoice_run {R : Type} invoiceId (w : world) :
  @retrieve_invoice _ _ R invoiceId w
  = if get_fails invoiceId
    then Next (no_invoice,
               Some ("RETRIEVE_INVOICE: Error retrieving invoice with invoice Id = "
                     ++ invoiceId)) w
    else if snd (unmarshal_invoice (w !! invoiceId))
         then Next (fst (unmarshal_invoice (w !! invoiceId)),
                    Some ("RETRIEVE_INVOICE: Corrupt invoice record "
                          ++ stored_text (w !! invoiceId))) w
         else Next (fst (unmarshal_invoice (w !! invoiceId)), None) w.
Proof.
  unfold retrieve_invoice. unfold_i.
  destruct (get_fails invoiceId); [reflexivity |]. cbv beta iota zeta. cbn [fst snd].
  destruct (unmarshal_invoice (w !! invoiceId)) as [inv [|]]; reflexivity.
Qed.

Lemma save_changes_run {R : Type} inv (w : world) :
  @save_changes _ R inv w
  = match put_fails (InvoiceId inv) with
    | Some _ => Next (false, Some "Error storing invoice record") w
    | None => Next (true, None) (<[InvoiceId inv := marshal_invoice inv]> w)
    end.
Proof.
  unfold save_changes, is_error. unfold_i.
  destruct (put_fails (InvoiceId inv)); cbv beta iota zeta.
  - rewrite bool_decide_eq_true_2 by eauto. reflexivity.
  - rewrite bool_decide_eq_false_2 by (intros [? ?]; discriminate). reflexivity.
Qed.

End InvoiceRuns.

Section Trades.
Import Invoices.
Context {json : JsonText} {caller : Caller} {ledger : Ledger}.

(** The three trade operations on an invoice that is stored under its id,
    with a ledger that reads and puts it. *)
Section Stored.
Variables (id : string) (inv : Invoice) (rest : list string) (w : world).
Hypothesis stored_here : w !! id = Some (marshal_invoice inv).
Hypothesis own_id : InvoiceId inv = id.
Hypothesis reads : get_fails id = false.
Hypothesis puts : put_fails id = None.

Lemma retrieve_stored {R : Type} : @retrieve_invoice _ _ R id w = Next (inv, None) w.
Proof.
  rewrite retrieve_invoice_run, reads, stored_here, unmarshal_marshal_invoice. reflexivity.
Qed.

Ltac enter :=
  unfold call at 1;
  unfold at_index, return_if, return_, mbind, M_bind, mret, M_ret;
  destruct get_username as [username ?]; try destruct get_role as [role ?];
  cbn [fst lookup list_lookup]; cbv beta iota zeta;
  rewrite retrieve_stored; cbv beta iota zeta.

Ltac save :=
  rewrite save_changes_run; cbn [InvoiceId set_Status set_Financier];
  rewrite own_id, puts; reflexivity.

(** Property X16.  For an invoice stored under its id, which the ledger
    reads and puts, accept_trade by a caller whose role is financier returns
    no error and stores the invoice with the caller's user name as its
    financier and the status 1, its other fields as they were.  The status
    before plays no part: an invoice that is approved is taken again. *)
Theorem accept_trade_takes :
  fst get_role = FINANCIER ->
  accept_trade (id :: rest) w
  = Next (None, None)
      (<[id := marshal_invoice (set_Status (set_Financier inv (fst get_username)) "1")]> w).
Proof.
  unfold accept_trade. enter. cbn [fst]. intros ->. cbn [String.eqb negb]. cbv beta iota zeta.
  rewrite String.eqb_refl. cbn [negb]. cbv beta iota zeta. save.
Qed.

(** Property X17.  For an invoice stored under its id, which the
    ledger reads and puts, approve_trade by the caller whose user name is the
    buyer of the invoice returns no error and stores the invoice with the
    status 2, its other fields as they were.  The status before plays no
    part: an invoice that no financier has taken is approved as well. *)
Theorem approve_trade_approves :
  fst get_username = Buyer inv ->
  approve_trade (id :: rest) w
  = Next (None, None) (<[id := marshal_invoice (set_Status inv "2")]> w).
Proof.
  unfold approve_trade. enter. cbn [fst]. intros ->.
  rewrite String.eqb_refl. cbn [negb]. cbv beta iota zeta. save.
Qed.

(** Property X18.  For an invoice stored under its id, which the
    ledger reads and puts, reject_trade by the caller whose user name is the
    buyer of the invoice returns an error and writes nothing when the status
    is 0 or 2; with any other status it returns no error and stores the
    invoice with the status 0 and the financier UNDEFINED, its other fields as
    they were. *)
Theorem reject_trade_reopens :
  fst get_username = Buyer inv ->
  reject_trade (id :: rest) w
  = if String.eqb (Status inv) "0" || String.eqb (Status inv) "2"
    then Next (None,
               Some (if String.eqb (Status inv) "0"
                     then "Permission Denied. reject_trade. This invoice hasn't been bought by a third party financier"
                     else "Permission Denied. reject_trade. This invoice has already been approved."))
           w
    else Next (None, None)
           (<[id := marshal_invoice (set_Financier (set_Status inv "0") "UNDEFINED")]> w).
Proof.
  unfold reject_trade. enter. cbn [fst]. intros ->.
  rewrite String.eqb_refl. cbn [negb]. cbv beta iota zeta.
  destruct (String.eqb (Status inv) "0"); cbn [orb]; cbv beta iota zeta; [reflexivity |].
  destruct (String.eqb (Status inv) "2"); cbv beta iota zeta; [reflexivity |]. save.
Qed.

End Stored.

(** Property X19.  A caller who is not entitled writes nothing.
    create_invoice by a caller whose role is not seller, and accept_trade by
    one whose role is not financier, return an error or panic (for missing
    arguments) and leave the world state as it was, whatever the arguments and
    the state; approve_trade and reject_trade by a caller whose user name is
    not the buyer of the invoice read under the id return an error and leave
    the world state as it was. *)
Theorem unentitled_writes_nothing args w :
  (fst get_role <> SELLER ->
   create_invoice args w = Panic w
   \/ exists msg, create_invoice args w = Next (None, Some msg) w)
  /\ (fst get_role <> FINANCIER ->
      accept_trade args w = Panic w
      \/ exists msg, accept_trade args w = Next (None, Some msg) w)
  /\ (forall id rest,
        args = id :: rest ->
        get_fails id = false ->
        fst get_username <> Buyer (fst (unmarshal_invoice (w !! id))) ->
        (exists msg, approve_trade args w = Next (None, Some msg) w)
        /\ exists msg, reject_trade args w = Next (None, Some msg) w).
Proof.
  split; [| split].
  - intros Hrole. apply String.eqb_neq in Hrole.
    cut (forall o, create_invoice args w = o ->
                   o = Panic w \/ exists msg, o = Next (None, Some msg) w);
      [intros H; exact (H _ eq_refl) |].
    unfold create_invoice. unfold call at 1.
    unfold at_index, GetState, return_if, return_, panic, failure, mbind, M_bind, mret, M_ret.
    destruct get_username as [username ?], get_role as [role ?]. cbn [fst] in Hrole.
    rewrite Hrole. cbn [negb]. intros out.
    repeat step; intros <-; eauto.
  - intros Hrole. apply String.eqb_neq in Hrole.
    cut (forall o, accept_trade args w = o ->
                   o = Panic w \/ exists msg, o = Next (None, Some msg) w);
      [intros H; exact (H _ eq_refl) |].
    unfold accept_trade. unfold call at 1.
    unfold at_index, return_if, return_, panic, failure, mbind, M_bind, mret, M_ret.
    destruct get_username as [username ?], get_role as [role ?]. cbn [fst] in Hrole.
    rewrite Hrole. cbn [negb]. intros out. destruct args as [| id rest]; red_m; [intros <-; auto |].
    rewrite retrieve_invoice_run. repeat step; intros <-; eauto.
  - intros id rest -> Hget Hbuyer. apply String.eqb_neq in Hbuyer.
    unfold approve_trade, reject_trade. unfold call.
    unfold at_index, return_if, return_, panic, failure, mbind, M_bind, mret, M_ret.
    destruct get_username as [username ?]. cbn [fst] in Hbuyer. red_m.
    rewrite !retrieve_invoice_run, Hget.
    destruct (unmarshal_invoice (w !! id)) as [inv [|]]; cbn [fst snd] in *;
      cbv beta iota zeta; rewrite Hbuyer; cbn [negb]; eauto.
Qed.

End Trades.

Section InvoiceCreation.
Import Invoices.
Context {json : JsonText} {caller : Caller} {ledger : Ledger}.

Lemma invoice_of_spelled id amount username buyer discount :
  invoice_of (spelled id amount username buyer discount)
  = mkInvoice id amount "USD" username buyer "UNDEFINED" "0" "UNDEFINED" discount
  /\ mismatch (spelled id amount username buyer discount) = false.
Proof. split; reflexivity. Qed.

Section Spelled.
Variables (id amount discount buyer : string) (rest : list string) (w : world).
Hypothesis reads_text :
  object_of (invoice_json id amount (fst get_username) buyer discount)
  = Some (spelled id amount (fst get_username) buyer discount).

(** create_invoice up to the test for a record under the id. *)
Lemma create_invoice_run :
  create_invoice (id :: amount :: discount :: buyer :: rest) w
  = if negb (get_fails id) && bool_decide (is_Some (w !! id))
    then Next (failure "Invoice already exists") w
    else if negb (String.eqb (fst get_role) SELLER)
    then Next (failure ("Permission Denied. create_invoice. " ++ fst get_role ++ " !== "
                        ++ SELLER)) w
    else
      let inv := mkInvoice id amount "USD" (fst get_username) buyer "UNDEFINED" "0"
                   "UNDEFINED" discount in
      match put_fails id with
      | Some _ => Next (failure "Error saving changes") w
      | None =>
          let w1 := <[id := marshal_invoice inv]> w in
          if get_fails "invoiceIDs" then Next (failure "Unable to get invoiceIDs") w1
          else if snd (unmarshal_holder (w1 !! "invoiceIDs"))
          then Next (failure "Corrupt Invoice_Holder record") w1
          else
            match put_fails "invoiceIDs" with
            | Some _ => Next (failure "Unable to put the state") w1
            | None =>
                Next (None, None)
                  (<["invoiceIDs" :=
                       marshal_holder
                         (appended (fst (unmarshal_holder (w1 !! "invoiceIDs"))) id)]> w1)
            end
      end.
Proof.
  unfold create_invoice. unfold call at 1.
  unfold at_index, GetState, PutState, return_if, return_, failure, is_error,
    mbind, M_bind, mret, M_ret.
  destruct get_username as [username ?], get_role as [role ?]. cbn [fst] in *. red_m.
  unfold unmarshal_text. rewrite reads_text.
  destruct (invoice_of_spelled id amount username buyer discount) as [-> ->].
  cbn [InvoiceId]. red_m.
  destruct (get_fails id); cbn [negb andb]; red_m; rewrite ?decide_none; red_m.
  2: destruct (w !! id); rewrite ?decide_none, ?decide_some; red_m; [reflexivity |].
  all: destruct (String.eqb role SELLER); cbn [negb]; red_m; [| reflexivity].
  all: rewrite save_changes_run; cbn [InvoiceId].
  all: destruct (put_fails id); red_m; rewrite ?decide_none, ?decide_some; red_m;
    [reflexivity |].
  all: destruct (get_fails "invoiceIDs"); red_m; [reflexivity |].
  all: destruct (unmarshal_holder _) as [h [|]]; red_m; [reflexivity |].
  all: destruct (put_fails "invoiceIDs"); rewrite ?decide_none, ?decide_some; reflexivity.
Qed.

(** Property X20.  create_invoice by a caller whose role is seller,
    with an id that holds no record, a holder stored under invoiceIDs, a
    ledger that reads and puts both, and a text that is read as the object it
    spells: it returns no error, stores under the id the invoice with the
    amount, the discount and the buyer of the arguments, the caller's user
    name as the seller, the currency USD, the status 0 and the due date and
    the financier UNDEFINED, and appends the id to the ids of the holder. *)
Theorem create_invoice_creates h :
  fst get_role = SELLER ->
  w !! id = None ->
  w !! "invoiceIDs" = Some (marshal_holder h) ->
  put_fails id = None ->
  get_fails "invoiceIDs" = false ->
  put_fails "invoiceIDs" = None ->
  create_invoice (id :: amount :: discount :: buyer :: rest) w
  = Next (None, None)
      (<["invoiceIDs" := marshal_holder (appended h id)]>
         (<[id := marshal_invoice
                    (mkInvoice id amount "USD" (fst get_username) buyer "UNDEFINED" "0"
                       "UNDEFINED" discount)]> w)).
Proof.
  intros Hrole Hfree Hholder Hput Hget Hputh.
  rewrite create_invoice_run, Hfree, Hrole, Hput, Hget, Hputh.
  rewrite decide_none, andb_false_r. cbn [String.eqb Ascii.eqb Bool.eqb negb SELLER]. cbv zeta.
  rewrite lookup_insert_ne by (intros ->; congruence).
  rewrite Hholder, unmarshal_marshal_holder. reflexivity.
Qed.


End Spelled.

(** Property X22.  create_invoice does not count its arguments: with
    fewer than four it panics, on an index out of range, and so do
    accept_trade, approve_trade and reject_trade with none; the world state
    is as it was. *)
Theorem short_arguments_panic args w :
  ((length args < 4)%nat -> create_invoice args w = Panic w)
  /\ (args = [] ->
      accept_trade args w = Panic w
      /\ approve_trade args w = Panic w
      /\ reject_trade args w = Panic w).
Proof.
  split.
  - intros Hlen. unfold create_invoice. unfold call at 1.
    unfold at_index, panic, mbind, M_bind, mret, M_ret.
    destruct get_username as [username ?].
    do 4 (destruct args as [| ? args]; [reflexivity |]). cbn [length] in Hlen. lia.
  - intros ->. unfold accept_trade, approve_trade, reject_trade, call, at_index, panic,
      mbind, M_bind.
    destruct get_username as [username ?], get_role as [role ?]. auto.
Qed.

End InvoiceCreation.

(** ** The listings *)

Section Strings.

Lemma string_app_cons c a b : String c a ++ b = String c (a ++ b).
Proof. reflexivity. Qed.

Lemma string_app_assoc a b c : (a ++ b) ++ c = a ++ (b ++ c).
Proof.
  induction a as [| x a IH]; [reflexivity |].
  rewrite !string_app_cons, IH. reflexivity.
Qed.

Lemma string_app_nil_r a : a ++ "" = a.
Proof.
  induction a as [| x a IH]; [reflexivity |]. rewrite string_app_cons, IH. reflexivity.
Qed.

Lemma string_length_app a b : String.length (a ++ b) = (String.length a + String.length b)%nat.
Proof.
  induction a as [| x a IH]; [reflexivity |].
  rewrite string_app_cons. cbn [String.length]. rewrite IH. reflexivity.
Qed.

Lemma substring_prefix a b : String.substring 0 (String.length a) (a ++ b) = a.
Proof.
  induction a as [| x a IH].
  - destruct b; reflexivity.
  - rewrite string_app_cons. cbn [String.length String.substring]. rewrite IH. reflexivity.
Qed.

End Strings.

Section Listings.
Import Invoices.
Context {json : JsonText} {caller : Caller} {ledger : Ledger}.

Lemma spliced_app texts result :
  spliced texts result = result ++ spliced texts "".
Proof.
  unfold spliced. revert result.
  induction texts as [| t texts IH]; intros result; cbn [fold_left].
  - rewrite string_app_nil_r. reflexivity.
  - rewrite IH. rewrite (IH ("" ++ t ++ ",")).
    change ("" ++ t ++ ",") with (t ++ ","). apply string_app_assoc.
Qed.

Lemma spliced_concat t texts :
  spliced (t :: texts) "" = String.concat "," (t :: texts) ++ ",".
Proof.
  revert t. induction texts as [| t' texts IH]; intros t; [reflexivity |].
  change (spliced (t :: t' :: texts) "") with (spliced (t' :: texts) (t ++ ",")).
  rewrite spliced_app, IH.
  change (String.concat "," (t :: t' :: texts))
    with (t ++ "," ++ String.concat "," (t' :: texts)).
  rewrite !string_app_assoc. reflexivity.
Qed.

(** The text closed as the array of its elements. *)
Lemma closed_spliced texts : closed (spliced texts "[") = listing texts.
Proof.
  destruct texts as [| t texts]; [reflexivity |].
  rewrite spliced_app, spliced_concat. unfold closed, listing.
  set (s := String.concat "," (t :: texts)).
  assert (Hlen : String.length ("[" ++ s ++ ",") = S (String.length ("[" ++ s))).
  { rewrite <- string_app_assoc, string_length_app. cbn [String.length]. lia. }
  rewrite Hlen. cbn [Nat.eqb].
  destruct (String.length ("[" ++ s)) eqn:Hl; [discriminate Hl |]. cbn [Nat.eqb].
  replace (S (S n) - 1)%nat with (S n) by lia. rewrite <- Hl.
  rewrite <- (string_app_assoc "[" s ","), substring_prefix.
  apply string_app_assoc.
Qed.

Lemma details_of_run ids invs username result w :
  stored_as w ids invs ->
  details_of ids username result w
  = Next (spliced (map (fun inv => text_of (marshal_invoice inv))
                     (List.filter (fun inv => party inv username) invs)) result) w.
Proof.
  intros Hstored. revert result.
  induction Hstored as [| id inv ids invs [Hget Hinv] _ IH]; intros result; [reflexivity |].
  cbn [details_of]. unfold return_if, return_, is_error, mbind, M_bind, mret, M_ret.
  rewrite retrieve_invoice_run, Hget, Hinv. cbn [fst snd]. cbv beta iota zeta.
  rewrite decide_none. cbv beta iota zeta.
  unfold get_invoice_details. fold (party inv username). cbn [List.filter].
  destruct (party inv username); cbn [failure]; cbv beta iota zeta;
    rewrite ?decide_none, ?decide_some; apply IH.
Qed.

Lemma open_of_run ids invs result w :
  stored_as w ids invs ->
  open_of ids result w
  = Next (spliced (map (fun inv => text_of (marshal_invoice inv))
                     (List.filter (fun inv => String.eqb (Status inv) "0") invs)) result) w.
Proof.
  intros Hstored. revert result.
  induction Hstored as [| id inv ids invs [Hget Hinv] _ IH]; intros result; [reflexivity |].
  cbn [open_of]. unfold return_if, return_, is_error, mbind, M_bind, mret, M_ret.
  rewrite retrieve_invoice_run, Hget, Hinv. cbn [fst snd]. cbv beta iota zeta.
  rewrite decide_none. cbv beta iota zeta. cbn [List.filter].
  destruct (String.eqb (Status inv) "0"); apply IH.
Qed.

(** Property X23.  When the holder is read without an error and every
    id it lists holds an invoice that is read without an error, get_invoices
    writes nothing and returns the text of a JSON array: a bracket, the texts
    of the listed invoices of which the caller's user name is the seller, the
    buyer or the financier, in the order of the holder and separated by
    commas, and a bracket; "[]" when there is none. *)
Theorem get_invoices_lists args w invs :
  get_fails "invoiceIDs" = false ->
  snd (unmarshal_holder (w !! "invoiceIDs")) = false ->
  stored_as w (listed w) invs ->
  get_invoices args w
  = Next (Some (Text (listing (map (fun inv => text_of (marshal_invoice inv))
                                 (List.filter (fun inv => party inv (fst get_username))
                                    invs)))),
          None) w.
Proof.
  intros Hget Hholder Hstored. unfold get_invoices, listed in *. unfold call at 1.
  unfold GetState, return_if, return_, mbind, M_bind, mret, M_ret.
  rewrite Hget. cbv beta iota zeta. destruct get_username as [username ?]. cbn [fst].
  destruct (unmarshal_holder (w !! "invoiceIDs")) as [h err]. cbn [fst snd] in *. subst err.
  cbv beta iota zeta. rewrite (details_of_run _ invs) by assumption.
  rewrite closed_spliced. reflexivity.
Qed.

(** Property X24.  Under the same conditions
    get_opening_trade_invoices writes nothing and returns the text of the
    JSON array of the listed invoices whose status is 0, in the order of the
    holder, to whoever calls it: the certificate of the caller is not
    read. *)
Theorem get_opening_trade_invoices_lists args w invs :
  get_fails "invoiceIDs" = false ->
  snd (unmarshal_holder (w !! "invoiceIDs")) = false ->
  stored_as w (listed w) invs ->
  get_opening_trade_invoices args w
  = Next (Some (Text (listing (map (fun inv => text_of (marshal_invoice inv))
                                 (List.filter (fun inv => String.eqb (Status inv) "0")
                                    invs)))),
          None) w.
Proof.
  intros Hget Hholder Hstored. unfold get_opening_trade_invoices, listed in *.
  unfold call at 1. unfold GetState, return_if, return_, mbind, M_bind, mret, M_ret.
  rewrite Hget. cbv beta iota zeta.
  destruct (unmarshal_holder (w !! "invoiceIDs")) as [h err]. cbn [fst snd] in *. subst err.
  cbv beta iota zeta. rewrite (open_of_run _ invs) by assumption.
  rewrite closed_spliced. reflexivity.
Qed.

End Listings.

(** ** Queries *)

Section Queries.
Import Invoices.
Context {json : JsonText} {caller : Caller} {ledger : Ledger}.

Lemma retrieve_invoice_unchanged {R : Type} id (w : world) :
  exists r, @retrieve_invoice _ _ R id w = Next r w.
Proof.
  rewrite retrieve_invoice_run. destruct (get_fails id); [eauto |].
  destruct (snd (unmarshal_invoice (w !! id))); eauto.
Qed.

Lemma details_of_unchanged ids username result w :
  unchanged (details_of ids username result w) w.
Proof.
  revert result. induction ids as [| id ids IH]; intros result; [reflexivity |].
  cbn [details_of]. unfold return_if, return_, mbind, M_bind, mret, M_ret.
  destruct (retrieve_invoice_unchanged (R := reply) id w) as [[inv err] ->].
  cbv beta iota zeta. destruct (is_error err); [reflexivity |].
  destruct (get_invoice_details inv username) as [temp err']. apply IH.
Qed.

Lemma open_of_unchanged ids result w : unchanged (open_of ids result w) w.
Proof.
  revert result. induction ids as [| id ids IH]; intros result; [reflexivity |].
  cbn [open_of]. unfold return_if, return_, mbind, M_bind, mret, M_ret.
  destruct (retrieve_invoice_unchanged (R := reply) id w) as [[inv err] ->].
  cbv beta iota zeta. destruct (is_error err); [reflexivity |]. apply IH.
Qed.

Lemma call_unchanged {R R' : Type} (body : M R R) w :
  unchanged (body w) w ->
  call (R' := R') body w = Panic w \/ exists r, call (R' := R') body w = Next r w.
Proof. unfold call, unchanged. destruct (body w); intros ->; eauto. Qed.

Lemma called_unchanged {R R' : Type} (body : M R R) w :
  unchanged (body w) w -> unchanged (call (R' := R') body w) w.
Proof. unfold call, unchanged. destruct (body w); auto. Qed.

Lemma get_invoices_unchanged args w : unchanged (get_invoices args w) w.
Proof.
  unfold get_invoices. apply called_unchanged.
  unfold GetState, return_if, return_, mbind, M_bind, mret, M_ret.
  destruct (get_fails "invoiceIDs"); cbv beta iota zeta; [reflexivity |].
  destruct get_username as [username ?].
  destruct (unmarshal_holder (w !! "invoiceIDs")) as [h [|]]; cbv beta iota zeta;
    [reflexivity |].
  pose proof (details_of_unchanged (default [] (Invoices h)) username "[" w) as H.
  destruct (details_of _ _ _ w); cbn [unchanged] in *; assumption.
Qed.

Lemma get_opening_trade_invoices_unchanged args w :
  unchanged (get_opening_trade_invoices args w) w.
Proof.
  unfold get_opening_trade_invoices. apply called_unchanged.
  unfold GetState, return_if, return_, mbind, M_bind, mret, M_ret.
  destruct (get_fails "invoiceIDs"); cbv beta iota zeta; [reflexivity |].
  destruct (unmarshal_holder (w !! "invoiceIDs")) as [h [|]]; cbv beta iota zeta;
    [reflexivity |].
  pose proof (open_of_unchanged (default [] (Invoices h)) "[" w) as H.
  destruct (open_of _ _ w); cbn [unchanged] in *; assumption.
Qed.

Lemma read_unchanged args w : unchanged (read args w) w.
Proof.
  unfold read. apply called_unchanged.
  unfold at_index, GetState, return_if, return_, panic, mbind, M_bind, mret, M_ret.
  repeat step; reflexivity.
Qed.

(** Property X25.  Query writes nothing: for every function name,
    all arguments and every world state it panics or returns, and the world
    state is as it was. *)
Theorem Query_writes_nothing function args w :
  Query function args w = Panic w \/ exists r, Query function args w = Next r w.
Proof.
  unfold Query. apply call_unchanged.
  repeat match goal with
         | |- context [String.eqb function ?n] => destruct (String.eqb function n)
         end.
  - unfold at_index, return_if, return_, panic, mbind, M_bind, mret, M_ret.
    destruct (negb (length args =? 2)%nat); [reflexivity |].
    destruct (args !! 0%nat); [| reflexivity].
    destruct (retrieve_invoice_unchanged (R := reply) s w) as [[inv err] ->].
    cbv beta iota zeta. destruct (is_error err); [reflexivity |].
    destruct (args !! 1%nat); reflexivity.
  - apply get_invoices_unchanged.
  - apply get_opening_trade_invoices_unchanged.
  - apply read_unchanged.
  - reflexivity.
  - reflexivity.
  - reflexivity.
Qed.

(** Property X26.  The query get_invoice_details with an id and a
    name, for an invoice stored under the id, returns the invoice when the
    name is its seller, its buyer or its financier and the error "Permission
    Denied" otherwise.  The name is the second argument: the certificate of
    the caller plays no part. *)
Theorem Query_details_by_name id name w inv :
  w !! id = Some (marshal_invoice inv) ->
  get_fails id = false ->
  Query "get_invoice_details" [id; name] w
  = Next (if party inv name then (Some (Doc (marshal_invoice inv)), None)
          else failure "Permission Denied. get_invoice_details") w.
Proof.
  intros Hstored Hget. unfold Query. unfold call at 1.
  cbn [String.eqb Ascii.eqb Bool.eqb length Nat.eqb negb].
  unfold at_index, return_if, return_, mbind, M_bind, mret, M_ret. red_m.
  rewrite retrieve_invoice_run, Hget, Hstored, unmarshal_marshal_invoice. cbn [fst snd].
  cbv beta iota zeta. unfold is_error. rewrite decide_none. reflexivity.
Qed.

End Queries.

(** ** The invoices along the invocations *)

Section InvoicesKept.
Import Invoices.
Context {json : JsonText} {ledger : Ledger}.
Hypothesis reads_obey : forall key, get_fails key = false.

Lemma holder_not_invoice h inv : marshal_holder h <> marshal_invoice inv.
Proof. discriminate. Qed.

Lemma invoice_of_holder h : InvoiceId (fst (unmarshal_invoice (Some (marshal_holder h)))) = "".
Proof. destruct h as [[l |]]; reflexivity. Qed.

Lemma listed_insert_ne key d (w : world) :
  key <> "invoiceIDs" -> listed (<[key := d]> w) = listed w.
Proof. intros Hkey. unfold listed. rewrite lookup_insert_ne by assumption. reflexivity. Qed.

(** The invoice retrieve_invoice hands out in a kept world: the zero
    invoice, or the one stored under the id. *)
Lemma kept_retrieved w id :
  kept w ->
  InvoiceId (fst (unmarshal_invoice (w !! id))) <> "invoiceIDs".
Proof.
  intros Hw. destruct (w !! id) as [d |] eqn:Hd; [| discriminate].
  destruct (String.eqb_spec id "invoiceIDs") as [-> | Hne].
  - destruct (kept_holder w Hw) as [h Hh]. rewrite Hh in Hd. injection Hd as <-.
    rewrite invoice_of_holder. discriminate.
  - destruct (kept_records w Hw id d Hd Hne) as (inv & -> & Hid & _).
    rewrite unmarshal_marshal_invoice. cbn [fst]. congruence.
Qed.

Lemma invoice_update_kept w key inv :
  kept w -> key <> "invoiceIDs" -> InvoiceId inv = key -> status_ok inv ->
  kept (<[key := marshal_invoice inv]> w).
Proof.
  intros Hw Hkey Hid Hok. split.
  - destruct (kept_holder w Hw) as [h Hh]. exists h.
    rewrite lookup_insert_ne by assumption. exact Hh.
  - rewrite listed_insert_ne by assumption. apply (kept_once w Hw).
  - intros id. rewrite listed_insert_ne by assumption. intros Hin.
    destruct (kept_listed w Hw id Hin) as [Hsome Hne]. split; [| exact Hne].
    destruct (String.eqb_spec key id) as [-> | Hk].
    + rewrite lookup_insert_eq. eauto.
    + rewrite lookup_insert_ne by assumption. exact Hsome.
  - intros k d Hd Hk. destruct (String.eqb_spec key k) as [-> | Hne].
    + rewrite lookup_insert_eq in Hd. injection Hd as <-. eauto.
    + rewrite lookup_insert_ne in Hd by assumption. apply (kept_records w Hw k d Hd Hk).
Qed.

Lemma listed_stored h (w : world) :
  w !! "invoiceIDs" = Some (marshal_holder h) -> listed w = default [] (Invoices h).
Proof. intros Hh. unfold listed. rewrite Hh, unmarshal_marshal_holder. reflexivity. Qed.

Lemma invoice_created_kept w id inv h :
  kept w -> w !! id = None -> w !! "invoiceIDs" = Some (marshal_holder h) ->
  InvoiceId inv = id -> status_ok inv ->
  kept (<["invoiceIDs" := marshal_holder (appended h id)]>
          (<[id := marshal_invoice inv]> w)).
Proof.
  intros Hw Hfree Hh Hid Hok.
  assert (Hne : id <> "invoiceIDs") by (intros ->; congruence).
  assert (Hlisted : listed (<["invoiceIDs" := marshal_holder (appended h id)]>
                              (<[id := marshal_invoice inv]> w))
                    = (listed w ++ [id])%list).
  { rewrite (listed_stored (appended h id)) by apply lookup_insert_eq.
    rewrite (listed_stored h w Hh). reflexivity. }
  split.
  - eexists. apply lookup_insert_eq.
  - rewrite Hlisted. apply NoDup_app. split; [apply (kept_once w Hw) |].
    split; [| apply NoDup_singleton].
    intros x Hx Hx'. apply list_elem_of_singleton in Hx'. subst x.
    destruct (kept_listed w Hw id Hx) as [[d Hd] _]. congruence.
  - intros x. rewrite Hlisted. intros Hx. apply elem_of_app in Hx as [Hx | Hx].
    + destruct (kept_listed w Hw x Hx) as [Hsome Hx']. split; [| exact Hx'].
      rewrite lookup_insert_ne by congruence.
      destruct (String.eqb_spec id x) as [-> | Hk].
      * rewrite lookup_insert_eq. eauto.
      * rewrite lookup_insert_ne by assumption. exact Hsome.
    + apply list_elem_of_singleton in Hx. subst x. split; [| exact Hne].
      rewrite lookup_insert_ne by congruence. rewrite lookup_insert_eq. eauto.
  - intros k d Hd Hk. rewrite lookup_insert_ne in Hd by congruence.
    destruct (String.eqb_spec id k) as [-> | Hne'].
    + rewrite lookup_insert_eq in Hd. injection Hd as <-. eauto.
    + rewrite lookup_insert_ne in Hd by assumption. apply (kept_records w Hw k d Hd Hk).
Qed.

Lemma init_invoices_kept function args w0 :
  Init function args ∅ = Next (None, None) w0 -> kept w0.
Proof.
  unfold Init. unfold_i. unfold is_error.
  destruct (put_fails "invoiceIDs"); rewrite ?decide_none, ?decide_some;
    cbv beta iota zeta; intros [= <-].
  split.
  - eexists. apply lookup_insert_eq.
  - rewrite (listed_stored (mkHolder None)) by apply lookup_insert_eq. apply NoDup_nil_2.
  - rewrite (listed_stored (mkHolder None)) by apply lookup_insert_eq.
    intros id Hin. apply elem_of_nil in Hin. destruct Hin.
  - intros k d Hd Hk. rewrite lookup_insert_ne in Hd by congruence.
    rewrite lookup_empty in Hd. discriminate Hd.
Qed.

(** A trade operation that returns no error has put one invoice under its
    own id: that of the invoice retrieved. *)
Lemma trade_effect (caller : Caller) i w w' r :
  invoke caller i w = Next (r, None) w' ->
  match i with CreateInvoice _ => False | _ => True end ->
  exists id inv,
    w' = <[InvoiceId inv := marshal_invoice inv]> w
    /\ InvoiceId inv = InvoiceId (fst (unmarshal_invoice (w !! id)))
    /\ status_ok inv.
Proof.
  intros Hrun Hi. destruct i as [args | args | args | args]; [destruct Hi | | |];
    cbn [invoke] in Hrun; revert Hrun;
    unfold accept_trade, approve_trade, reject_trade; unfold call at 1;
    unfold at_index, return_if, return_, panic, failure, is_error,
      mbind, M_bind, mret, M_ret;
    destruct get_username as [username ?]; try destruct get_role as [role ?];
    (destruct args as [| id rest]; red_m; [discriminate |]);
    rewrite retrieve_invoice_run, reads_obey;
    destruct (unmarshal_invoice (w !! id)) as [inv err] eqn:Hinv; cbn [fst snd].
  all: destruct err; cbv beta iota zeta.
  all: repeat first [ rewrite save_changes_run; cbn [InvoiceId set_Status set_Financier]
                    | rewrite decide_none
                    | rewrite decide_some
                    | step ].
  all: intros Heq; try discriminate Heq; injection Heq as _ <-.
  all: match goal with
       | |- context [marshal_invoice ?x] => exists id, x
       end; (split; [reflexivity |]); rewrite ?Hinv; cbn [InvoiceId fst];
    (split; [reflexivity |]); unfold status_ok; cbn [Status Financier]; auto.
Qed.

(** A create_invoice that returns no error has stored the invoice under a
    free id and appended the id to the holder. *)
Lemma create_invoice_effect (caller : Caller) args w w' r :
  create_invoice args w = Next (r, None) w' ->
  reads_as_spelled caller (CreateInvoice args) ->
  exists id inv,
    w !! id = None
    /\ w' = <["invoiceIDs" :=
               marshal_holder
                 (appended (fst (unmarshal_holder (<[id := marshal_invoice inv]> w
                                                   !! "invoiceIDs"))) id)]>
             (<[id := marshal_invoice inv]> w)
    /\ snd (unmarshal_holder (<[id := marshal_invoice inv]> w !! "invoiceIDs")) = false
    /\ InvoiceId inv = id /\ status_ok inv.
Proof.
  intros Hrun Hspelled. cbn [reads_as_spelled] in Hspelled.
  destruct args as [| id [| amount [| discount [| buyer rest]]]].
  1-4: exfalso; revert Hrun; unfold create_invoice; unfold call at 1;
    unfold at_index, panic, mbind, M_bind, mret, M_ret;
    destruct get_username as [username ?]; discriminate.
  cbn [nth] in Hspelled. rewrite (create_invoice_run _ _ _ _ _ _ Hspelled) in Hrun.
  unfold failure in Hrun. rewrite reads_obey in Hrun. cbn [negb andb] in Hrun.
  destruct (w !! id) eqn:Hfree; rewrite ?decide_none, ?decide_some in Hrun;
    [discriminate Hrun |].
  destruct (negb _); [discriminate Hrun |].
  destruct (put_fails id); [discriminate Hrun |]. cbv zeta in Hrun.
  rewrite reads_obey in Hrun.
  destruct (snd (unmarshal_holder _)) eqn:Herr; [discriminate Hrun |].
  destruct (put_fails "invoiceIDs"); [discriminate Hrun |]. injection Hrun as _ <-.
  eexists id, _. split; [exact Hfree |]. split; [reflexivity |].
  split; [exact Herr |]. split; [reflexivity |]. left. split; reflexivity.
Qed.

Lemma commit_invoices_kept (caller : Caller) i w :
  kept w -> reads_as_spelled caller i -> kept (commit caller i w).
Proof.
  intros Hw Hspelled. unfold commit.
  destruct (invoke caller i w) as [[r [e |]] w' | |] eqn:Hrun; try exact Hw.
  destruct i as [args | args | args | args].
  1: { cbn [invoke] in Hrun.
       destruct (create_invoice_effect caller args w w' r Hrun Hspelled)
         as (id & inv & Hfree & -> & Herr & Hid & Hok).
       destruct (kept_holder w Hw) as [h Hh].
       assert (Hne : id <> "invoiceIDs") by (intros ->; congruence).
       rewrite lookup_insert_ne by assumption. rewrite Hh, unmarshal_marshal_holder.
       cbn [fst]. apply invoice_created_kept; assumption. }
  all: destruct (trade_effect caller _ w w' r Hrun I) as (id & inv & -> & Hid & Hok);
    apply invoice_update_kept; try assumption; try reflexivity;
    rewrite Hid; apply kept_retrieved, Hw.
Qed.

Lemma reachable_invoices_kept w : reachable w -> kept w.
Proof.
  induction 1 as [function args w0 Hinit | w caller i _ IH Hspelled].
  - exact (init_invoices_kept function args w0 Hinit).
  - exact (commit_invoices_kept caller i w IH Hspelled).
Qed.

(** Property X27.  On a ledger that fails no read, in every world
    state that invocations of create_invoice, accept_trade, approve_trade and
    reject_trade, by whatever callers, reach from the deployment on an empty
    ledger, the text of each create_invoice being read as the object it
    spells: the holder is read without an error and lists no id twice, and
    every id it lists holds an invoice that is read without an error, carries
    the id as its own, and is open (status 0) with the financier UNDEFINED, or
    taken (status 1), or approved (status 2). *)
Theorem invoices_listed_once w :
  reachable w ->
  NoDup (listed w)
  /\ snd (unmarshal_holder (w !! "invoiceIDs")) = false
  /\ exists invs,
       stored_as w (listed w) invs
       /\ Forall2 (fun id inv => InvoiceId inv = id /\ status_ok inv) (listed w) invs.
Proof.
  intros Hreach. pose proof (reachable_invoices_kept w Hreach) as Hw.
  split; [apply (kept_once w Hw) |]. split.
  { destruct (kept_holder w Hw) as [h ->]. rewrite unmarshal_marshal_holder. reflexivity. }
  pose proof (kept_listed w Hw) as Hlisted.
  induction (listed w) as [| id ids IH].
  - exists []. split; constructor.
  - destruct IH as (invs & Hstored & Hids).
    { intros x Hx. apply Hlisted. apply elem_of_cons. right. exact Hx. }
    destruct (Hlisted id) as [[d Hd] Hne]; [apply elem_of_cons; left; reflexivity |].
    destruct (kept_records w Hw id d Hd Hne) as (inv & -> & Hid & Hok).
    exists (inv :: invs). split; constructor; try assumption.
    + split; [apply reads_obey |]. rewrite Hd. apply unmarshal_marshal_invoice.
    + split; assumption.
Qed.

End InvoicesKept.

(** ** The properties on the sample worlds *)

Lemma Init_resets_witness :
  exists w',
    Init ["7"] sample_world = Next ok w'
    /\ w' !! "test_key" = Some (DRaw (Strconv.FormatInt (fst (Strconv.Atoi "7"))))
    /\ (forall e, w' !! index_key e = Some DNull /\ index_of e w' = [])
    /\ forall key,
         key <> "test_key" -> key <> LicenseIndexStr -> key <> AccountIndexStr ->
         w' !! key = sample_world !! key.
Proof. exact (Init_resets sound_ledger_obedient "7" sample_world eq_refl). Defined.

Lemma Init_refuses_witness :
  exists msg, Init ["seven"] sample_world = Next (Error msg) sample_world.
Proof.
  apply Init_refuses. right. exists "seven". split; [reflexivity | discriminate].
Defined.

Lemma Invoke_unknown_witness :
  Invoke "06-15-2024" "addActivityToAccount" ["A_B_1"; "250"] sample_world
  = Next (Error "Received unknown invoke function name - 'addActivityToAccount'")
      sample_world.
Proof.
  apply (Invoke_unknown "06-15-2024" "addActivityToAccount").
  apply (bool_decide_unpack _). vm_compute. reflexivity.
Defined.

Lemma create_then_read_witness :
  exists w',
    create license sample_license fresh_world = Next ok w'
    /\ read ["P1_E1"] w' = Next (Success (Some (entity_text license sample_license))) w'
    /\ key_field license (Some (entity_text license sample_license)) = "P1_E1"
    /\ index_of license w' = (index_of license fresh_world ++ ["P1_E1"])%list
    /\ forall key, key <> "P1_E1" -> key <> index_key license ->
                   w' !! key = fresh_world !! key.
Proof.
  apply (create_then_read reference_clean sound_ledger_obedient license sample_license
           fresh_world).
  - vm_compute. reflexivity.
  - vm_compute. reflexivity.
  - apply (bool_decide_unpack _). vm_compute. reflexivity.
Defined.

Lemma create_twice_witness :
  exists w' msg,
    create account sample_account fresh_world = Next ok w'
    /\ create account
         ["A"; "B"; "Other"; "Names"; "EUR"; "Feb-2024"; "5"; "5"; "1"; "Bank"] w'
       = Next (Error msg) w'.
Proof.
  apply (create_twice reference_clean sound_ledger_obedient account sample_account).
  - vm_compute. reflexivity.
  - vm_compute. reflexivity.
  - apply (bool_decide_unpack _). vm_compute. reflexivity.
  - reflexivity.
Defined.

(** delete_license on the key of the sample account. *)
Lemma delete_license_any_record_witness :
  exists w',
    delete_license ["A_B_1"] sample_world = Next ok w'
    /\ w' !! "A_B_1" = None
    /\ index_of license w' = remove_first "A_B_1" (index_of license sample_world)
    /\ index_of account w' = index_of account sample_world
    /\ forall k, k <> "A_B_1" -> k <> LicenseIndexStr -> w' !! k = sample_world !! k.
Proof.
  apply (delete_license_any_record sound_ledger_obedient).
  apply (bool_decide_unpack _). vm_compute. reflexivity.
Defined.

Lemma delete_license_twice_witness :
  exists w',
    delete_license ["P1_E1"] sample_world = Next ok w'
    /\ delete_license ["P1_E1"] w' = Next ok w'.
Proof.
  apply (delete_license_twice sound_ledger_obedient).
  apply (bool_decide_unpack _). vm_compute. reflexivity.
Defined.



(** The sample account rolled from January, with a second argument. *)
Lemma next_period_rolls_witness :
  next_period ["A_B_1"; "A_B_1"] sample_world
  = Next ok
      (<["A_B_1" :=
           Codec.marshal_account
             (rolled (Codec.unmarshal_account (sample_world !! "A_B_1")) "Feb-20")]>
         sample_world).
Proof.
  exact (next_period_rolls sound_ledger_obedient "A_B_1" "A_B_1" [] sample_world 0
           "-"%char "2"%char "0"%char "24" ltac:(lia) eq_refl ltac:(discriminate)).
Defined.

(** ** The invoice chaincode on the sample invoice *)

Section InvoiceSamples.
Import Invoices.

Lemma one_invoice_stored : one_invoice !! "INV1" = Some (marshal_invoice sample_invoice).
Proof. vm_compute. reflexivity. Qed.

Lemma create_invoice_creates_witness :
  @create_invoice RefJson.reference seller_anna sound_ledger sample_arguments deployed
  = Next (None, None)
      (<["invoiceIDs" := marshal_holder (appended (mkHolder None) "INV1")]>
         (<["INV1" := marshal_invoice sample_invoice]> deployed)).
Proof.
  apply (@create_invoice_creates RefJson.reference seller_anna sound_ledger
           "INV1" "100.00" "0.05" "bob" [] deployed).
  - vm_compute. reflexivity.
  - reflexivity.
  - vm_compute. reflexivity.
  - vm_compute. reflexivity.
  - reflexivity.
  - reflexivity.
  - reflexivity.
Defined.


Lemma accept_trade_takes_witness :
  @accept_trade RefJson.reference financier_fay sound_ledger ["INV1"] one_invoice
  = Next (None, None)
      (<["INV1" := marshal_invoice (set_Status (set_Financier sample_invoice "fay") "1")]>
         one_invoice).
Proof.
  exact (@accept_trade_takes RefJson.reference financier_fay sound_ledger "INV1"
           sample_invoice [] one_invoice one_invoice_stored eq_refl eq_refl eq_refl eq_refl).
Defined.

(** bob approves an invoice that no financier has taken. *)
Lemma approve_trade_approves_witness :
  @approve_trade RefJson.reference buyer_bob sound_ledger ["INV1"] one_invoice
  = Next (None, None) (<["INV1" := marshal_invoice (set_Status sample_invoice "2")]> one_invoice).
Proof.
  exact (@approve_trade_approves RefJson.reference buyer_bob sound_ledger "INV1"
           sample_invoice [] one_invoice one_invoice_stored eq_refl eq_refl eq_refl eq_refl).
Defined.

Lemma taken_invoice_stored :
  taken_invoice !! "INV1"
  = Some (marshal_invoice (set_Status (set_Financier sample_invoice "fay") "1")).
Proof. vm_compute. reflexivity. Qed.

Lemma reject_trade_reopens_witness :
  @reject_trade RefJson.reference buyer_bob sound_ledger ["INV1"] taken_invoice
  = Next (None, None) (<["INV1" := marshal_invoice sample_invoice]> taken_invoice).
Proof.
  exact (@reject_trade_reopens RefJson.reference buyer_bob sound_ledger "INV1"
           (set_Status (set_Financier sample_invoice "fay") "1") [] taken_invoice
           taken_invoice_stored eq_refl eq_refl eq_refl eq_refl).
Defined.

Lemma get_invoices_lists_witness :
  @get_invoices RefJson.reference buyer_bob sound_ledger [] one_invoice
  = Next (Some (Text (listing [@text_of RefJson.reference (marshal_invoice sample_invoice)])),
          None) one_invoice
  /\ @get_invoices RefJson.reference financier_fay sound_ledger [] one_invoice
     = Next (Some (Text "[]"), None) one_invoice.
Proof.
  split.
  - apply (@get_invoices_lists RefJson.reference buyer_bob sound_ledger [] one_invoice
             [sample_invoice]); [reflexivity | vm_compute; reflexivity |].
    repeat constructor.
  - apply (@get_invoices_lists RefJson.reference financier_fay sound_ledger [] one_invoice
             [sample_invoice]); [reflexivity | vm_compute; reflexivity |].
    repeat constructor.
Defined.

Lemma get_opening_trade_invoices_lists_witness :
  @get_opening_trade_invoices RefJson.reference sound_ledger [] one_invoice
  = Next (Some (Text (listing [@text_of RefJson.reference (marshal_invoice sample_invoice)])),
          None) one_invoice
  /\ @get_opening_trade_invoices RefJson.reference sound_ledger [] taken_invoice
     = Next (Some (Text "[]"), None) taken_invoice.
Proof.
  split.
  - apply (@get_opening_trade_invoices_lists RefJson.reference sound_ledger [] one_invoice
             [sample_invoice]); [reflexivity | vm_compute; reflexivity |].
    repeat constructor.
  - apply (@get_opening_trade_invoices_lists RefJson.reference sound_ledger [] taken_invoice
             [set_Status (set_Financier sample_invoice "fay") "1"]);
      [reflexivity | vm_compute; reflexivity |].
    repeat constructor.
Defined.

(** A caller with no certificate attribute at all names bob and is shown
    bob's invoice. *)
Lemma Query_details_by_name_witness :
  @Query RefJson.reference (party_of "" "") sound_ledger "get_invoice_details"
    ["INV1"; "bob"] one_invoice
  = Next (Some (Doc (marshal_invoice sample_invoice)), None) one_invoice.
Proof.
  exact (@Query_details_by_name RefJson.reference (party_of "" "") sound_ledger "INV1" "bob"
           one_invoice sample_invoice one_invoice_stored eq_refl).
Defined.

Lemma invoices_listed_once_witness :
  NoDup (listed taken_invoice)
  /\ snd (unmarshal_holder (taken_invoice !! "invoiceIDs")) = false
  /\ exists invs,
       @stored_as sound_ledger taken_invoice (listed taken_invoice) invs
       /\ Forall2 (fun id inv => InvoiceId inv = id /\ status_ok inv)
            (listed taken_invoice) invs.
Proof.
  apply (@invoices_listed_once RefJson.reference sound_ledger); [reflexivity |].
  unfold taken_invoice, one_invoice.
  apply reachable_commit; [apply reachable_commit |].
  - apply (reachable_init "init" []). vm_compute. reflexivity.
  - vm_compute. reflexivity.
  - exact I.
Defined.

End InvoiceSamples.
